(** * go-cardano-fees: fee and minUTxO formulas over 64-bit unsigned integers

    A shallow embedding of the Go package [fees] (params.go, the fee
    calculator, minutxo.go and the checked-sum part of lovelace.go).

    A Go [uint64] is a [Z] in the range [0, 2^64); every [+], [-] and [*]
    of the source is written with its reduction modulo [2^64].  A Go
    [(uint64, error)] result is a [result]: [Ok v] when the error is
    [nil], [Err e] otherwise (the source always pairs an error with the
    value 0).  Error values keep the three struct types of the package
    and their message strings; [fmt.Errorf] values are [PlainError].

    The float64 conversions and formatters of lovelace.go ([ToLovelace],
    [ToADA], [FormatADA], [FormatLovelace]) are not part of the
    embedding. *)

From Stdlib Require Import ZArith Lia List String Bool DecimalString.
From Stdlib Require Import DecimalN Permutation Ascii.
Import ListNotations.

Local Open Scope string_scope.
Local Open Scope Z_scope.

(** ** Machine integers *)

Module U64.

Definition modulus : Z := 2 ^ 64.

(** math.MaxUint64 *)
Definition MaxUint64 : Z := 18446744073709551615.

Definition in_range (z : Z) : Prop := 0 <= z <= MaxUint64.

Definition wrap (z : Z) : Z := z mod modulus.

Definition add (a b : Z) : Z := wrap (a + b).
Definition sub (a b : Z) : Z := wrap (a - b).
Definition mul (a b : Z) : Z := wrap (a * b).

(** The verb %d of fmt applied to a uint64. *)
Definition fmt_d (z : Z) : string :=
  NilZero.string_of_uint (N.to_uint (Z.to_N z)).

End U64.

(** ** Errors and results *)

Inductive error : Type :=
| ParamError (Field Message : string)
| FeeError (Reason : string)
| MinUTxOError (Reason : string)
| PlainError (msg : string).

Inductive result (A : Type) : Type :=
| Ok (v : A)
| Err (e : error).

Arguments Ok {A} v.
Arguments Err {A} e.

Definition is_ok {A} (r : result A) : bool :=
  match r with Ok _ => true | Err _ => false end.

Definition is_FeeError {A} (r : result A) : bool :=
  match r with Err (FeeError _) => true | _ => false end.

Definition is_ParamError {A} (r : result A) : bool :=
  match r with Err (ParamError _ _) => true | _ => false end.

Definition is_MinUTxOError {A} (r : result A) : bool :=
  match r with Err (MinUTxOError _) => true | _ => false end.

(** ** params.go *)

Record ProtocolParams : Type := mkParams {
  MinFeeA : Z;
  MinFeeB : Z;
  CoinsPerUTxOByte : Z;
  MaxTxSize : Z
}.

Definition DefaultMainnetParams : ProtocolParams :=
  {| MinFeeA := 44; MinFeeB := 155381;
     CoinsPerUTxOByte := 4310; MaxTxSize := 16384 |}.

Definition DefaultPreviewParams : ProtocolParams :=
  {| MinFeeA := 44; MinFeeB := 155381;
     CoinsPerUTxOByte := 4310; MaxTxSize := 16384 |}.

(** [Validate] returns [nil] ([None]) or the first failing field. *)
Definition Validate (p : ProtocolParams) : option error :=
  if MinFeeA p =? 0 then Some (ParamError "MinFeeA" "must be non-zero")
  else if MinFeeB p =? 0 then Some (ParamError "MinFeeB" "must be non-zero")
  else if CoinsPerUTxOByte p =? 0
       then Some (ParamError "CoinsPerUTxOByte" "must be non-zero")
  else if MaxTxSize p =? 0 then Some (ParamError "MaxTxSize" "must be non-zero")
  else None.

(** Every field is a uint64. *)
Definition params_in_range (p : ProtocolParams) : Prop :=
  U64.in_range (MinFeeA p) /\ U64.in_range (MinFeeB p) /\
  U64.in_range (CoinsPerUTxOByte p) /\ U64.in_range (MaxTxSize p).

(** ** The fee calculator *)

Definition MinFee (p : ProtocolParams) (txSizeBytes : Z) : result Z :=
  match Validate p with
  | Some err => Err err
  | None =>
      if txSizeBytes =? 0
      then Err (FeeError "txSizeBytes must be greater than zero")
      else if txSizeBytes >? MaxTxSize p
      then Err (FeeError ("txSizeBytes " ++ U64.fmt_d txSizeBytes
                          ++ " exceeds MaxTxSize " ++ U64.fmt_d (MaxTxSize p)))
      else Ok (U64.add (U64.mul (MinFeeA p) txSizeBytes) (MinFeeB p))
  end.

Definition MinFeeWithPadding (p : ProtocolParams)
    (txSizeBytes paddingBytes : Z) : result Z :=
  MinFee p (U64.add txSizeBytes paddingBytes).

Definition baseTxSize : Z := 200.
Definition bytesPerInput : Z := 140.
Definition bytesPerOutput : Z := 65.
Definition metadataSize : Z := 250.

Definition EstimateFee (p : ProtocolParams) (numInputs numOutputs : Z)
    (hasMetadata : bool) : result Z :=
  match Validate p with
  | Some err => Err err
  | None =>
      if numInputs =? 0
      then Err (FeeError "numInputs must be at least 1")
      else if numOutputs =? 0
      then Err (FeeError "numOutputs must be at least 1")
      else
        let estimated :=
          U64.add (U64.add baseTxSize (U64.mul bytesPerInput numInputs))
                  (U64.mul bytesPerOutput numOutputs) in
        let estimated :=
          if hasMetadata then U64.add estimated metadataSize else estimated in
        MinFee p estimated
  end.

(** ** minutxo.go *)

Record OutputSize : Type := mkOutputSize {
  AddressBytes : Z;
  NumPolicies : Z;
  NumAssets : Z;
  TotalAssetNameBytes : Z;
  HasDatumHash : bool;
  HasInlineDatum : bool;
  InlineDatumBytes : Z;
  HasScriptRef : bool;
  ScriptRefBytes : Z
}.

Definition output_in_range (out : OutputSize) : Prop :=
  U64.in_range (AddressBytes out) /\ U64.in_range (NumPolicies out) /\
  U64.in_range (NumAssets out) /\ U64.in_range (TotalAssetNameBytes out) /\
  U64.in_range (InlineDatumBytes out) /\ U64.in_range (ScriptRefBytes out).

Definition envelopeOverhead : Z := 10.
Definition adaValueBytes : Z := 9.
Definition policyHashBytes : Z := 28.
Definition perAssetOverhead : Z := 12.
Definition perAssetIntBytes : Z := 5.
Definition tokenBundleFixed : Z := 5.
Definition datumHashBytes : Z := 32.

Definition EstimateOutputBytes (out : OutputSize) : Z :=
  let total := U64.add (U64.add envelopeOverhead (AddressBytes out))
                       adaValueBytes in
  let total :=
    if (NumAssets out >? 0) || (NumPolicies out >? 0) then
      let total := U64.add total tokenBundleFixed in
      let total := U64.add total (U64.mul policyHashBytes (NumPolicies out)) in
      let total := U64.add total (U64.mul perAssetOverhead (NumAssets out)) in
      let total := U64.add total (TotalAssetNameBytes out) in
      U64.add total (U64.mul perAssetIntBytes (NumAssets out))
    else total in
  let total :=
    if HasDatumHash out then U64.add total datumHashBytes else total in
  let total :=
    if HasInlineDatum out then U64.add total (InlineDatumBytes out)
    else total in
  let total :=
    if HasScriptRef out then U64.add total (ScriptRefBytes out) else total in
  total.

Definition zero_bytes_reason : string :=
  "serializedOutputBytes must be greater than zero".

Definition MinUTxOFromBytes (p : ProtocolParams)
    (serializedOutputBytes : Z) : result Z :=
  match Validate p with
  | Some err => Err err
  | None =>
      if serializedOutputBytes =? 0
      then Err (MinUTxOError zero_bytes_reason)
      else Ok (U64.mul (U64.add 160 serializedOutputBytes)
                       (CoinsPerUTxOByte p))
  end.

Definition MinUTxO (p : ProtocolParams) (out : OutputSize) : result Z :=
  match Validate p with
  | Some err => Err err
  | None =>
      let serialized := EstimateOutputBytes out in
      MinUTxOFromBytes p serialized
  end.

Definition MinUTxOADAOnly (p : ProtocolParams) : result Z :=
  MinUTxO p (mkOutputSize 57 0 0 0 false false 0 false 0).

Definition MinUTxOForNFT (p : ProtocolParams) (assetNameLen : Z) : result Z :=
  if assetNameLen >? 32
  then Err (MinUTxOError ("assetNameLen " ++ U64.fmt_d assetNameLen
                          ++ " exceeds maximum of 32 bytes"))
  else MinUTxO p (mkOutputSize 57 1 1 assetNameLen false false 0 false 0).

Definition MinUTxOForBundle (p : ProtocolParams)
    (numPolicies numAssets totalAssetNameBytes : Z) : result Z :=
  if numPolicies =? 0
  then Err (MinUTxOError "numPolicies must be at least 1")
  else if numAssets =? 0
  then Err (MinUTxOError "numAssets must be at least 1")
  else MinUTxO p (mkOutputSize 57 numPolicies numAssets totalAssetNameBytes
                               false false 0 false 0).

(** ** lovelace.go: checked addition *)

Definition AddLovelace (a b : Z) : result Z :=
  if a >? U64.sub U64.MaxUint64 b
  then Err (PlainError ("fees: AddLovelace: overflow adding " ++ U64.fmt_d a
                        ++ " + " ++ U64.fmt_d b))
  else Ok (U64.add a b).

(** The loop of [SumLovelace], started with the running [total]. *)
Fixpoint SumLovelace_from (total : Z) (values : list Z) : result Z :=
  match values with
  | [] => Ok total
  | v :: rest =>
      match AddLovelace total v with
      | Err err => Err err
      | Ok total' => SumLovelace_from total' rest
      end
  end.

Definition SumLovelace (values : list Z) : result Z :=
  SumLovelace_from 0 values.

Definition IsAboveMinUTxO (p : ProtocolParams) (lovelace : Z)
    (out : OutputSize) : result (bool * Z) :=
  match MinUTxO p out with
  | Err err => Err err
  | Ok required => Ok (lovelace >=? required, required)
  end.


(** [FormatLovelace]: [fmt.Sprintf] of the amount with the unit suffix. *)
Definition FormatLovelace (lovelace : Z) : string :=
  U64.fmt_d lovelace ++ " Lovelace".

(** ** The [Error] methods

    [ParamError], [FeeError] and [MinUTxOError] each define [Error];
    the value of [fmt.Errorf] answers with its message. *)
Definition Error (e : error) : string :=
  match e with
  | ParamError Field Message =>
      "fees: invalid protocol param " ++ Field ++ ": " ++ Message
  | FeeError Reason => "fees: " ++ Reason
  | MinUTxOError Reason => "fees: minUTxO: " ++ Reason
  | PlainError msg => msg
  end.

(** Classification of error values by their Go type. *)
Definition is_param_or_fee_error (e : error) : bool :=
  match e with ParamError _ _ | FeeError _ => true | _ => false end.

Definition is_param_or_minutxo_error (e : error) : bool :=
  match e with ParamError _ _ | MinUTxOError _ => true | _ => false end.

(** Whether a string contains a space. *)
Fixpoint has_space (s : string) : bool :=
  match s with
  | EmptyString => false
  | String c rest => Ascii.eqb c " "%char || has_space rest
  end.

(** ** Exact (unbounded) counterparts of the size estimates

    The same sums as [EstimateFee] and [EstimateOutputBytes] compute,
    taken in [Z] without reduction; the theorems below say when the
    machine value agrees with them. *)

Definition estimated_size_exact (numInputs numOutputs : Z)
    (hasMetadata : bool) : Z :=
  200 + 140 * numInputs + 65 * numOutputs + (if hasMetadata then 250 else 0).

Definition output_bytes_exact (out : OutputSize) : Z :=
  10 + AddressBytes out + 9
  + (if (NumAssets out >? 0) || (NumPolicies out >? 0)
     then 5 + 28 * NumPolicies out + 12 * NumAssets out
          + TotalAssetNameBytes out + 5 * NumAssets out
     else 0)
  + (if HasDatumHash out then 32 else 0)
  + (if HasInlineDatum out then InlineDatumBytes out else 0)
  + (if HasScriptRef out then ScriptRefBytes out else 0).

(** The descriptors the three wrappers hand to [MinUTxO]. *)
Definition ada_only_output : OutputSize :=
  mkOutputSize 57 0 0 0 false false 0 false 0.

Definition nft_output (assetNameLen : Z) : OutputSize :=
  mkOutputSize 57 1 1 assetNameLen false false 0 false 0.

Definition bundle_output (numPolicies numAssets totalAssetNameBytes : Z)
  : OutputSize :=
  mkOutputSize 57 numPolicies numAssets totalAssetNameBytes
               false false 0 false 0.

(** Sum of a sequence of amounts, in [Z]. *)
Definition total_exact (values : list Z) : Z := fold_right Z.add 0 values.

(** The error value [AddLovelace] builds for the operands [a] and [b]. *)
Definition AddLovelace_overflow (a b : Z) : error :=
  PlainError ("fees: AddLovelace: overflow adding " ++ U64.fmt_d a
              ++ " + " ++ U64.fmt_d b).

(** The left fold of [AddLovelace] from zero, an error absorbing the rest. *)
Definition AddLovelace_step (acc : result Z) (v : Z) : result Z :=
  match acc with
  | Ok total => AddLovelace total v
  | Err err => Err err
  end.

Definition SumLovelace_fold (values : list Z) : result Z :=
  fold_left AddLovelace_step values (Ok 0).

(** ** The properties as the specification words them

    Each is the universally quantified reading of one sentence of the
    specification, over all uint64 inputs and with amounts as integers. *)

Module AsStated.

Definition MinFee_exact : Prop :=
  forall p tx, params_in_range p -> U64.in_range tx ->
    Validate p = None -> 1 <= tx <= MaxTxSize p ->
    MinFee p tx = Ok (MinFeeA p * tx + MinFeeB p).

Definition MinUTxOFromBytes_exact : Prop :=
  forall p n, params_in_range p -> U64.in_range n ->
    Validate p = None -> 0 < n ->
    MinUTxOFromBytes p n = Ok ((160 + n) * CoinsPerUTxOByte p).

Definition EstimateFee_monotone_inputs : Prop :=
  forall p i i' o m f f', params_in_range p -> Validate p = None ->
    U64.in_range i -> U64.in_range i' -> U64.in_range o -> i <= i' ->
    EstimateFee p i o m = Ok f -> EstimateFee p i' o m = Ok f' -> f <= f'.

Definition EstimateFee_monotone_outputs : Prop :=
  forall p i o o' m f f', params_in_range p -> Validate p = None ->
    U64.in_range i -> U64.in_range o -> U64.in_range o' -> o <= o' ->
    EstimateFee p i o m = Ok f -> EstimateFee p i o' m = Ok f' -> f <= f'.

Definition EstimateFee_metadata_strict : Prop :=
  forall p i o f f', params_in_range p -> Validate p = None ->
    U64.in_range i -> U64.in_range o ->
    EstimateFee p i o false = Ok f -> EstimateFee p i o true = Ok f' ->
    f < f'.

Definition EstimateFee_monotone : Prop :=
  EstimateFee_monotone_inputs /\ EstimateFee_monotone_outputs /\
  EstimateFee_metadata_strict.

Definition MinUTxOForNFT_exceeds_ADAOnly : Prop :=
  forall p n, params_in_range p -> Validate p = None -> 0 <= n <= 32 ->
    exists v a, MinUTxOForNFT p n = Ok v /\ MinUTxOADAOnly p = Ok a /\ a < v.

Definition MinUTxOForBundle_increasing_policies : Prop :=
  forall p np np' na nb r r', params_in_range p -> Validate p = None ->
    U64.in_range np -> U64.in_range np' -> U64.in_range na ->
    U64.in_range nb -> np < np' ->
    MinUTxOForBundle p np na nb = Ok r ->
    MinUTxOForBundle p np' na nb = Ok r' -> r < r'.

Definition MinUTxOForBundle_increasing_assets : Prop :=
  forall p np na na' nb r r', params_in_range p -> Validate p = None ->
    U64.in_range np -> U64.in_range na -> U64.in_range na' ->
    U64.in_range nb -> na < na' ->
    MinUTxOForBundle p np na nb = Ok r ->
    MinUTxOForBundle p np na' nb = Ok r' -> r < r'.

Definition MinUTxOForBundle_increasing_name_bytes : Prop :=
  forall p np na nb nb' r r', params_in_range p -> Validate p = None ->
    U64.in_range np -> U64.in_range na -> U64.in_range nb ->
    U64.in_range nb' -> nb < nb' ->
    MinUTxOForBundle p np na nb = Ok r ->
    MinUTxOForBundle p np na nb' = Ok r' -> r < r'.

Definition MinUTxOForBundle_increasing : Prop :=
  MinUTxOForBundle_increasing_policies /\
  MinUTxOForBundle_increasing_assets /\
  MinUTxOForBundle_increasing_name_bytes.

Definition EstimateOutputBytes_at_least_19 : Prop :=
  forall out, output_in_range out -> 19 <= EstimateOutputBytes out.

Definition MinUTxO_always_succeeds : Prop :=
  forall p out, params_in_range p -> Validate p = None ->
    output_in_range out -> is_ok (MinUTxO p out) = true.

Definition EstimateFee_delegates : Prop :=
  forall p i o m, params_in_range p -> U64.in_range i -> U64.in_range o ->
    Validate p = None -> i <> 0 -> o <> 0 ->
    EstimateFee p i o m
    = MinFee p (200 + 140 * i + 65 * o + (if m then 250 else 0)).

Definition MinFeeWithPadding_is_MinFee_of_total : Prop :=
  forall p x y, U64.in_range x -> U64.in_range y ->
    MinFeeWithPadding p x y = MinFee p (x + y).

End AsStated.

(** * Arithmetic modulo 2^64 *)

Module U64Facts.
Import U64.

Lemma modulus_pos : 0 < modulus.
Proof. reflexivity. Qed.

Lemma MaxUint64_modulus : MaxUint64 = modulus - 1.
Proof. reflexivity. Qed.

Lemma wrap_small (z : Z) : in_range z -> wrap z = z.
Proof.
  unfold in_range, wrap. rewrite MaxUint64_modulus. intros H.
  apply Z.mod_small. lia.
Qed.

Lemma wrap_in_range (z : Z) : in_range (wrap z).
Proof.
  unfold in_range, wrap. rewrite MaxUint64_modulus.
  pose proof (Z.mod_pos_bound z modulus modulus_pos). lia.
Qed.

Lemma wrap_wrap (z : Z) : wrap (wrap z) = wrap z.
Proof. apply wrap_small, wrap_in_range. Qed.

Lemma add_wrap_l (a b : Z) : wrap (wrap a + b) = wrap (a + b).
Proof. apply Zplus_mod_idemp_l. Qed.

Lemma add_wrap_r (a b : Z) : wrap (a + wrap b) = wrap (a + b).
Proof. apply Zplus_mod_idemp_r. Qed.

Lemma mul_wrap_r (a b : Z) : wrap (a * wrap b) = wrap (a * b).
Proof. apply Zmult_mod_idemp_r. Qed.

Lemma mul_wrap_l (a b : Z) : wrap (wrap a * b) = wrap (a * b).
Proof. apply Zmult_mod_idemp_l. Qed.

(** Congruences: reducing the operands first does not change the
    reduced sum or product. *)
Lemma wrap_add_congr (a a' b b' : Z) :
  wrap a = wrap a' -> wrap b = wrap b' -> wrap (a + b) = wrap (a' + b').
Proof.
  intros Ha Hb.
  rewrite <- (add_wrap_l a), <- (add_wrap_r _ b), Ha, Hb.
  rewrite add_wrap_l, add_wrap_r. reflexivity.
Qed.

Lemma wrap_mul_congr (a a' b b' : Z) :
  wrap a = wrap a' -> wrap b = wrap b' -> wrap (a * b) = wrap (a' * b').
Proof.
  intros Ha Hb.
  rewrite <- (mul_wrap_l a), <- (mul_wrap_r _ b), Ha, Hb.
  rewrite mul_wrap_l, mul_wrap_r. reflexivity.
Qed.

Lemma wrap_wrap_congr (a a' : Z) :
  wrap a = wrap a' -> wrap (wrap a) = wrap a'.
Proof. intros <-. apply wrap_wrap. Qed.

Lemma add_exact (a b : Z) :
  0 <= a -> 0 <= b -> a + b <= MaxUint64 -> add a b = a + b.
Proof. intros. apply wrap_small. unfold in_range. lia. Qed.

Lemma mul_exact (a b : Z) :
  0 <= a -> 0 <= b -> a * b <= MaxUint64 -> mul a b = a * b.
Proof. intros. apply wrap_small. unfold in_range. nia. Qed.

Lemma sub_exact (a b : Z) : 0 <= b <= a -> a <= MaxUint64 -> sub a b = a - b.
Proof. intros. apply wrap_small. unfold in_range. lia. Qed.

End U64Facts.

(** [unwrap] proves [wrap e = wrap ?e'] where [?e'] is [e] with every
    inner reduction erased; [push_wrap] uses it to turn an equation
    between a machine expression and [wrap e'] into an equation of plain
    expressions under one reduction. *)
Ltac unwrap :=
  repeat first [ apply U64Facts.wrap_wrap_congr
               | apply U64Facts.wrap_add_congr
               | apply U64Facts.wrap_mul_congr
               | reflexivity ].

Ltac push_wrap :=
  unfold U64.add, U64.mul; etransitivity; [ unwrap | ].

(** Range side conditions on concrete numbers. *)
Ltac in_range_solve :=
  unfold params_in_range, output_in_range, U64.in_range, U64.MaxUint64,
         DefaultMainnetParams;
  simpl; lia.

(** * Parameter validation *)

Lemma Validate_None_iff (p : ProtocolParams) :
  Validate p = None <->
  MinFeeA p <> 0 /\ MinFeeB p <> 0 /\ CoinsPerUTxOByte p <> 0 /\ MaxTxSize p <> 0.
Proof.
  unfold Validate.
  destruct (Z.eqb_spec (MinFeeA p) 0); [split; [discriminate | tauto] |].
  destruct (Z.eqb_spec (MinFeeB p) 0); [split; [discriminate | tauto] |].
  destruct (Z.eqb_spec (CoinsPerUTxOByte p) 0); [split; [discriminate | tauto] |].
  destruct (Z.eqb_spec (MaxTxSize p) 0); [split; [discriminate | tauto] |].
  tauto.
Qed.

Lemma Validate_Some_ParamError (p : ProtocolParams) (e : error) :
  Validate p = Some e -> exists f m, e = ParamError f m.
Proof.
  unfold Validate.
  repeat match goal with
         | |- context [if ?c then _ else _] => destruct c
         end; intros H; inversion H; eauto.
Qed.

Lemma valid_params_positive (p : ProtocolParams) :
  params_in_range p -> Validate p = None ->
  1 <= MinFeeA p /\ 1 <= MinFeeB p /\ 1 <= CoinsPerUTxOByte p /\ 1 <= MaxTxSize p.
Proof.
  unfold params_in_range, U64.in_range. rewrite Validate_None_iff. lia.
Qed.

Lemma invalid_params_cases (p : ProtocolParams) :
  Validate p <> None -> exists f m, Validate p = Some (ParamError f m).
Proof.
  destruct (Validate p) as [e|] eqn:E; [| congruence].
  intros _. destruct (Validate_Some_ParamError p e E) as (f & m & ->). eauto.
Qed.

(** * The linear fee *)

Lemma MinFee_invalid (p : ProtocolParams) (tx : Z) :
  Validate p <> None -> is_ParamError (MinFee p tx) = true.
Proof.
  intros H. destruct (invalid_params_cases p H) as (f & m & E).
  unfold MinFee. rewrite E. reflexivity.
Qed.

Lemma MinFee_valid_in_bounds (p : ProtocolParams) (tx : Z) :
  Validate p = None -> 1 <= tx <= MaxTxSize p ->
  MinFee p tx = Ok (U64.add (U64.mul (MinFeeA p) tx) (MinFeeB p)).
Proof.
  intros Hv [Hlo Hhi]. unfold MinFee. rewrite Hv.
  destruct (Z.eqb_spec tx 0) as [-> | _]; [lia |].
  destruct (Z.gtb_spec tx (MaxTxSize p)); [lia | reflexivity].
Qed.

Lemma MinFee_Ok_inv (p : ProtocolParams) (tx f : Z) :
  MinFee p tx = Ok f ->
  Validate p = None /\ tx <> 0 /\ tx <= MaxTxSize p /\
  f = U64.add (U64.mul (MinFeeA p) tx) (MinFeeB p).
Proof.
  unfold MinFee. destruct (Validate p); [discriminate |].
  destruct (Z.eqb_spec tx 0) as [| Hnz]; [discriminate |].
  destruct (Z.gtb_spec tx (MaxTxSize p)) as [| Hle]; [discriminate |].
  intros E. inversion E. repeat split; auto.
Qed.

Lemma fee_exact (a b tx : Z) :
  0 <= a -> 0 <= b -> 0 <= tx -> a * tx + b <= U64.MaxUint64 ->
  U64.add (U64.mul a tx) b = a * tx + b.
Proof.
  intros Ha Hb Htx Hfit.
  rewrite U64Facts.mul_exact by nia.
  apply U64Facts.add_exact; nia.
Qed.

(** C1 (amended). For params that pass [Validate] and a size with
    [1 <= txSizeBytes <= MaxTxSize], [MinFee] succeeds and returns exactly
    [MinFeeA * txSizeBytes + MinFeeB] whenever that amount fits in a
    uint64; [MinFee] fails with a [FeeError] when the size is zero or
    exceeds [MaxTxSize], and with a [ParamError] when the params are
    invalid. *)
Theorem MinFee_linear_within_uint64 (p : ProtocolParams) (txSizeBytes : Z)
    (Hp : params_in_range p) (Htx : U64.in_range txSizeBytes) :
  (Validate p = None -> 1 <= txSizeBytes <= MaxTxSize p ->
   MinFeeA p * txSizeBytes + MinFeeB p <= U64.MaxUint64 ->
   MinFee p txSizeBytes = Ok (MinFeeA p * txSizeBytes + MinFeeB p)) /\
  (Validate p = None -> txSizeBytes = 0 ->
   is_FeeError (MinFee p txSizeBytes) = true) /\
  (Validate p = None -> MaxTxSize p < txSizeBytes ->
   is_FeeError (MinFee p txSizeBytes) = true) /\
  (Validate p <> None -> is_ParamError (MinFee p txSizeBytes) = true).
Proof.
  repeat split.
  - intros Hv Hb Hfit.
    rewrite (MinFee_valid_in_bounds p txSizeBytes Hv Hb).
    destruct Hp as (Ha & Hb' & _). unfold U64.in_range in *.
    rewrite fee_exact; auto; lia.
  - intros Hv ->. unfold MinFee. rewrite Hv. reflexivity.
  - intros Hv Hgt. unfold MinFee. rewrite Hv.
    destruct (Z.eqb_spec txSizeBytes 0); [reflexivity |].
    destruct (Z.gtb_spec txSizeBytes (MaxTxSize p)); [reflexivity | lia].
  - apply MinFee_invalid.
Qed.

Lemma MinFee_linear_within_uint64_witness :
  MinFee DefaultMainnetParams 300 = Ok 168581 /\
  is_FeeError (MinFee DefaultMainnetParams 0) = true.
Proof.
  assert (Hp : params_in_range DefaultMainnetParams) by in_range_solve.
  split.
  - apply (MinFee_linear_within_uint64 DefaultMainnetParams 300 Hp);
      [in_range_solve | reflexivity | in_range_solve | in_range_solve].
  - assert (H0 : U64.in_range 0) by in_range_solve.
    destruct (MinFee_linear_within_uint64 DefaultMainnetParams 0 Hp H0)
      as (_ & Hzero & _).
    apply Hzero; reflexivity.
Defined.

(** C1 as stated fails: with [MinFeeA = 2^63] and a two-byte transaction
    the product is [2^64], and [MinFee] returns 1 where the formula
    gives [2^64 + 1]. *)
Lemma MinFee_exact_counterexample :
  let p := mkParams (2 ^ 63) 1 1 2 in
  params_in_range p /\ Validate p = None /\ 1 <= 2 <= MaxTxSize p /\
  MinFee p 2 = Ok 1 /\
  MinFeeA p * 2 + MinFeeB p = 18446744073709551617 /\
  ~ AsStated.MinFee_exact.
Proof.
  assert (Hp : params_in_range (mkParams (2 ^ 63) 1 1 2)) by in_range_solve.
  cbv zeta. split; [exact Hp |]. split; [reflexivity |].
  split; [simpl; lia |]. split; [reflexivity |]. split; [reflexivity |].
  intros H.
  specialize (H (mkParams (2 ^ 63) 1 1 2) 2 Hp).
  assert (E : MinFee (mkParams (2 ^ 63) 1 1 2) 2 = Ok 1) by reflexivity.
  rewrite E in H.
  assert (C : @Ok Z 1 = Ok 18446744073709551617).
  { apply H; [in_range_solve | reflexivity | simpl; lia]. }
  inversion C.
Qed.

(** * The minUTxO formula on an exact byte count *)

Lemma MinUTxOFromBytes_valid_nonzero (p : ProtocolParams) (n : Z) :
  Validate p = None -> n <> 0 ->
  MinUTxOFromBytes p n = Ok (U64.mul (U64.add 160 n) (CoinsPerUTxOByte p)).
Proof.
  intros Hv Hn. unfold MinUTxOFromBytes. rewrite Hv.
  destruct (Z.eqb_spec n 0); [contradiction | reflexivity].
Qed.

Lemma MinUTxOFromBytes_valid_zero (p : ProtocolParams) :
  Validate p = None ->
  MinUTxOFromBytes p 0 = Err (MinUTxOError zero_bytes_reason).
Proof. intros Hv. unfold MinUTxOFromBytes. rewrite Hv. reflexivity. Qed.

Lemma utxo_exact (n c : Z) :
  0 <= n -> 0 <= c -> (160 + n) * c <= U64.MaxUint64 -> 1 <= c ->
  U64.mul (U64.add 160 n) c = (160 + n) * c.
Proof.
  intros Hn Hc Hfit Hpos.
  rewrite U64Facts.add_exact by nia.
  apply U64Facts.mul_exact; lia.
Qed.

(** C2 (amended). For valid params and a byte count [n > 0],
    [MinUTxOFromBytes] succeeds and returns exactly
    [(160 + n) * CoinsPerUTxOByte] whenever that amount fits in a uint64;
    it fails with a [MinUTxOError] for [n = 0].  With the mainnet-like
    params, [MinFee] of 350 bytes is 170781 and [MinUTxOFromBytes] of 125
    bytes is 1228350. *)
Theorem MinUTxOFromBytes_within_uint64 (p : ProtocolParams) (n : Z)
    (Hp : params_in_range p) (Hn : U64.in_range n) (Hv : Validate p = None) :
  (0 < n -> (160 + n) * CoinsPerUTxOByte p <= U64.MaxUint64 ->
   MinUTxOFromBytes p n = Ok ((160 + n) * CoinsPerUTxOByte p)) /\
  (n = 0 -> is_MinUTxOError (MinUTxOFromBytes p n) = true) /\
  MinFee (mkParams 44 155381 4310 16384) 350 = Ok 170781 /\
  MinUTxOFromBytes (mkParams 44 155381 4310 16384) 125 = Ok 1228350.
Proof.
  split; [| split; [| split; reflexivity]].
  - intros Hpos Hfit.
    rewrite MinUTxOFromBytes_valid_nonzero by (auto; lia).
    destruct (valid_params_positive p Hp Hv) as (_ & _ & Hc & _).
    unfold U64.in_range in Hn.
    rewrite utxo_exact; auto; lia.
  - intros ->. rewrite MinUTxOFromBytes_valid_zero by assumption. reflexivity.
Qed.

Lemma MinUTxOFromBytes_within_uint64_witness :
  MinUTxOFromBytes DefaultMainnetParams 200 = Ok 1551600 /\
  is_MinUTxOError (MinUTxOFromBytes DefaultMainnetParams 0) = true.
Proof.
  assert (Hp : params_in_range DefaultMainnetParams) by in_range_solve.
  assert (Hv : Validate DefaultMainnetParams = None) by reflexivity.
  split.
  - assert (Hn : U64.in_range 200) by in_range_solve.
    destruct (MinUTxOFromBytes_within_uint64 DefaultMainnetParams 200 Hp Hn Hv)
      as (Hexact & _).
    apply Hexact; in_range_solve.
  - assert (Hn : U64.in_range 0) by in_range_solve.
    destruct (MinUTxOFromBytes_within_uint64 DefaultMainnetParams 0 Hp Hn Hv)
      as (_ & Hzero & _).
    apply Hzero; reflexivity.
Defined.

(** C2 as stated fails: with [CoinsPerUTxOByte = 2^63] and two bytes the
    product [162 * 2^63] is a multiple of [2^64], and the call succeeds
    with 0. *)
Lemma MinUTxOFromBytes_exact_counterexample :
  let p := mkParams 1 1 (2 ^ 63) 1 in
  params_in_range p /\ Validate p = None /\
  MinUTxOFromBytes p 2 = Ok 0 /\
  (160 + 2) * CoinsPerUTxOByte p = 81 * 2 ^ 64 /\
  ~ AsStated.MinUTxOFromBytes_exact.
Proof.
  assert (Hp : params_in_range (mkParams 1 1 (2 ^ 63) 1)) by in_range_solve.
  cbv zeta. split; [exact Hp |]. split; [reflexivity |].
  split; [reflexivity |]. split; [reflexivity |].
  intros H.
  specialize (H (mkParams 1 1 (2 ^ 63) 1) 2 Hp).
  assert (E : MinUTxOFromBytes (mkParams 1 1 (2 ^ 63) 1) 2 = Ok 0)
    by reflexivity.
  rewrite E in H.
  assert (C : @Ok Z 0 = Ok (81 * 2 ^ 64)).
  { apply H; [in_range_solve | reflexivity | lia]. }
  inversion C.
Qed.

(** * Unchecked arithmetic *)

(** C3 (evaluation at the failing input). With
    [MinFeeA = CoinsPerUTxOByte = 2^63], [MinFeeB = 1], [MaxTxSize = 2]:
    the params pass [Validate], [MinFee] of 2 bytes returns 1 without an
    error although [MinFeeA * 2 + MinFeeB] is [2^64 + 1], and
    [MinUTxOFromBytes] of 2 bytes returns 0 without an error although
    [(160 + 2) * CoinsPerUTxOByte] is [81 * 2^64]; the checked sum
    [AddLovelace] does report the overflow of the same magnitudes. *)
Theorem MinFee_and_MinUTxOFromBytes_wrap_silently :
  let p := mkParams (2 ^ 63) 1 (2 ^ 63) 2 in
  params_in_range p /\ Validate p = None /\
  MinFee p 2 = Ok 1 /\
  MinFeeA p * 2 + MinFeeB p = 2 ^ 64 + 1 /\
  MinFee p 2 = Ok (U64.wrap (MinFeeA p * 2 + MinFeeB p)) /\
  MinUTxOFromBytes p 2 = Ok 0 /\
  (160 + 2) * CoinsPerUTxOByte p = 81 * 2 ^ 64 /\
  MinUTxOFromBytes p 2 = Ok (U64.wrap ((160 + 2) * CoinsPerUTxOByte p)) /\
  is_ok (AddLovelace (2 ^ 63) (2 ^ 63)) = false.
Proof.
  cbv zeta. split; [in_range_solve |]. repeat split; reflexivity.
Qed.

(** * The structural fee estimate *)

Lemma EstimateFee_valid_counts (p : ProtocolParams) (i o : Z) (m : bool) :
  Validate p = None -> i <> 0 -> o <> 0 ->
  EstimateFee p i o m = MinFee p (U64.wrap (estimated_size_exact i o m)).
Proof.
  intros Hv Hi Ho. unfold EstimateFee. rewrite Hv.
  destruct (Z.eqb_spec i 0); [contradiction |].
  destruct (Z.eqb_spec o 0); [contradiction |].
  cbv zeta. f_equal.
  unfold estimated_size_exact, baseTxSize, bytesPerInput, bytesPerOutput,
         metadataSize.
  destruct m; push_wrap; f_equal; ring.
Qed.

Lemma EstimateFee_Ok_inv (p : ProtocolParams) (i o : Z) (m : bool) (f : Z) :
  EstimateFee p i o m = Ok f ->
  Validate p = None /\ i <> 0 /\ o <> 0 /\
  MinFee p (U64.wrap (estimated_size_exact i o m)) = Ok f.
Proof.
  intros E.
  assert (Hv : Validate p = None).
  { unfold EstimateFee in E. destruct (Validate p); [discriminate | reflexivity]. }
  assert (Hi : i <> 0).
  { intros ->. unfold EstimateFee in E. rewrite Hv in E. discriminate. }
  assert (Ho : o <> 0).
  { intros ->. unfold EstimateFee in E. rewrite Hv in E.
    destruct (i =? 0); discriminate. }
  rewrite EstimateFee_valid_counts in E by assumption. auto.
Qed.

Lemma estimated_size_exact_bounds (i o : Z) (m : bool) :
  0 <= i -> 0 <= o -> 200 <= estimated_size_exact i o m.
Proof. unfold estimated_size_exact. destruct m; lia. Qed.

(** A successful estimate whose exact fee fits in a uint64 is that fee. *)
Lemma EstimateFee_Ok_exact (p : ProtocolParams) (i o : Z) (m : bool) (f : Z) :
  params_in_range p -> U64.in_range i -> U64.in_range o ->
  MinFeeA p * estimated_size_exact i o m + MinFeeB p <= U64.MaxUint64 ->
  EstimateFee p i o m = Ok f ->
  f = MinFeeA p * estimated_size_exact i o m + MinFeeB p.
Proof.
  intros Hp Hi Ho Hfit E.
  destruct (EstimateFee_Ok_inv p i o m f E) as (Hv & _ & _ & E').
  destruct (valid_params_positive p Hp Hv) as (Ha & Hb & _).
  unfold U64.in_range in Hi, Ho.
  pose proof (estimated_size_exact_bounds i o m (proj1 Hi) (proj1 Ho)) as Hs.
  rewrite U64Facts.wrap_small in E' by (unfold U64.in_range; nia).
  destruct (MinFee_Ok_inv _ _ _ E') as (_ & _ & _ & ->).
  apply fee_exact; lia.
Qed.

(** C4 (amended). For valid params, successful estimates are
    non-decreasing in [numInputs] and in [numOutputs], and strictly
    larger with metadata than without, provided the exact fee
    [MinFeeA * size + MinFeeB] of the larger transaction, with
    [size = 200 + 140*numInputs + 65*numOutputs (+ 250)], fits in a
    uint64. *)
Theorem EstimateFee_monotone_within_uint64 (p : ProtocolParams)
    (Hp : params_in_range p) (Hv : Validate p = None) :
  (forall i i' o m f f',
      U64.in_range i -> U64.in_range i' -> U64.in_range o -> i <= i' ->
      MinFeeA p * estimated_size_exact i' o m + MinFeeB p <= U64.MaxUint64 ->
      EstimateFee p i o m = Ok f -> EstimateFee p i' o m = Ok f' -> f <= f') /\
  (forall i o o' m f f',
      U64.in_range i -> U64.in_range o -> U64.in_range o' -> o <= o' ->
      MinFeeA p * estimated_size_exact i o' m + MinFeeB p <= U64.MaxUint64 ->
      EstimateFee p i o m = Ok f -> EstimateFee p i o' m = Ok f' -> f <= f') /\
  (forall i o f f',
      U64.in_range i -> U64.in_range o ->
      MinFeeA p * estimated_size_exact i o true + MinFeeB p <= U64.MaxUint64 ->
      EstimateFee p i o false = Ok f -> EstimateFee p i o true = Ok f' ->
      f < f').
Proof.
  destruct (valid_params_positive p Hp Hv) as (Ha & Hb & _).
  split; [| split].
  - intros i i' o m f f' Hi Hi' Ho Hle Hfit E E'.
    assert (Hs : estimated_size_exact i o m <= estimated_size_exact i' o m)
      by (unfold estimated_size_exact; lia).
    rewrite (EstimateFee_Ok_exact p i' o m f') by assumption.
    rewrite (EstimateFee_Ok_exact p i o m f) by (auto; nia).
    nia.
  - intros i o o' m f f' Hi Ho Ho' Hle Hfit E E'.
    assert (Hs : estimated_size_exact i o m <= estimated_size_exact i o' m)
      by (unfold estimated_size_exact; lia).
    rewrite (EstimateFee_Ok_exact p i o' m f') by assumption.
    rewrite (EstimateFee_Ok_exact p i o m f) by (auto; nia).
    nia.
  - intros i o f f' Hi Ho Hfit E E'.
    assert (Hs : estimated_size_exact i o false + 250
                 = estimated_size_exact i o true)
      by (unfold estimated_size_exact; lia).
    rewrite (EstimateFee_Ok_exact p i o true f') by assumption.
    rewrite (EstimateFee_Ok_exact p i o false f) by (auto; nia).
    nia.
Qed.

Lemma EstimateFee_monotone_within_uint64_witness :
  EstimateFee DefaultMainnetParams 1 1 false = Ok 173201 /\
  EstimateFee DefaultMainnetParams 2 1 false = Ok 179361 /\
  EstimateFee DefaultMainnetParams 1 1 true = Ok 184201 /\
  173201 <= 179361 /\ 173201 < 184201.
Proof.
  assert (Hp : params_in_range DefaultMainnetParams) by in_range_solve.
  assert (Hv : Validate DefaultMainnetParams = None) by reflexivity.
  destruct (EstimateFee_monotone_within_uint64 DefaultMainnetParams Hp Hv)
    as (Hin & _ & Hmeta).
  split; [reflexivity |]. split; [reflexivity |]. split; [reflexivity |].
  split.
  - apply (Hin 1 2 1 false); try in_range_solve; reflexivity.
  - apply (Hmeta 1 1); try in_range_solve; reflexivity.
Defined.

(** C4 as stated fails.  With the mainnet params, [2^62] inputs give the
    size [140 * 2^62 + 265], which is 265 modulo [2^64]: the estimate
    succeeds with a smaller fee than for one input.  With
    [MinFeeA = 2^63] the fees of the odd sizes 405 and 655 coincide, so
    the metadata flag does not raise the fee. *)
Lemma EstimateFee_monotone_counterexample :
  EstimateFee DefaultMainnetParams 1 1 false = Ok 173201 /\
  EstimateFee DefaultMainnetParams (2 ^ 62) 1 false = Ok 167041 /\
  EstimateFee (mkParams (2 ^ 63) 1 1 U64.MaxUint64) 1 1 false
    = Ok 9223372036854775809 /\
  EstimateFee (mkParams (2 ^ 63) 1 1 U64.MaxUint64) 1 1 true
    = Ok 9223372036854775809 /\
  ~ AsStated.EstimateFee_monotone_inputs /\
  ~ AsStated.EstimateFee_metadata_strict /\
  ~ AsStated.EstimateFee_monotone.
Proof.
  assert (Hin : ~ AsStated.EstimateFee_monotone_inputs).
  { intros H.
    assert (C : 173201 <= 167041).
    { apply (H DefaultMainnetParams 1 (2 ^ 62) 1 false);
        try in_range_solve; reflexivity. }
    lia. }
  assert (Hmeta : ~ AsStated.EstimateFee_metadata_strict).
  { intros H.
    assert (C : 9223372036854775809 < 9223372036854775809).
    { apply (H (mkParams (2 ^ 63) 1 1 U64.MaxUint64) 1 1);
        try in_range_solve; reflexivity. }
    lia. }
  repeat (split; [reflexivity |]).
  split; [exact Hin |]. split; [exact Hmeta |].
  intros (H & _). exact (Hin H).
Qed.

(** C5 (amended). [EstimateFee] fails with a [ParamError] for invalid
    params and with a [FeeError] when [numInputs] or [numOutputs] is
    zero; otherwise, provided the size
    [200 + 140*numInputs + 65*numOutputs], plus 250 with metadata, fits in
    a uint64, its result is that of [MinFee] on that size (so with
    [MinFee]'s own failure conditions on it). *)
Theorem EstimateFee_delegates_within_uint64 (p : ProtocolParams)
    (numInputs numOutputs : Z) (hasMetadata : bool)
    (Hi : U64.in_range numInputs) (Ho : U64.in_range numOutputs) :
  (Validate p <> None ->
   is_ParamError (EstimateFee p numInputs numOutputs hasMetadata) = true) /\
  (Validate p = None -> numInputs = 0 \/ numOutputs = 0 ->
   is_FeeError (EstimateFee p numInputs numOutputs hasMetadata) = true) /\
  (numInputs = 0 \/ numOutputs = 0 ->
   is_ok (EstimateFee p numInputs numOutputs hasMetadata) = false) /\
  (Validate p = None -> numInputs <> 0 -> numOutputs <> 0 ->
   200 + 140 * numInputs + 65 * numOutputs
   + (if hasMetadata then 250 else 0) <= U64.MaxUint64 ->
   EstimateFee p numInputs numOutputs hasMetadata
   = MinFee p (200 + 140 * numInputs + 65 * numOutputs
               + (if hasMetadata then 250 else 0))).
Proof.
  split; [| split; [| split]].
  - intros H. destruct (invalid_params_cases p H) as (f & m & E).
    unfold EstimateFee. rewrite E. reflexivity.
  - intros Hv Hz. unfold EstimateFee. rewrite Hv.
    destruct (Z.eqb_spec numInputs 0); [reflexivity |].
    destruct (Z.eqb_spec numOutputs 0); [reflexivity | lia].
  - intros Hz. unfold EstimateFee.
    destruct (Validate p); [reflexivity |].
    destruct (Z.eqb_spec numInputs 0); [reflexivity |].
    destruct (Z.eqb_spec numOutputs 0); [reflexivity | lia].
  - intros Hv Hin Hon Hfit.
    rewrite EstimateFee_valid_counts by assumption.
    unfold estimated_size_exact. f_equal. apply U64Facts.wrap_small.
    unfold U64.in_range in *. destruct hasMetadata; lia.
Qed.

Lemma EstimateFee_delegates_within_uint64_witness :
  EstimateFee DefaultMainnetParams 2 2 true = MinFee DefaultMainnetParams 860 /\
  is_FeeError (EstimateFee DefaultMainnetParams 0 1 false) = true.
Proof.
  split.
  - assert (Hi : U64.in_range 2) by in_range_solve.
    destruct (EstimateFee_delegates_within_uint64 DefaultMainnetParams
                2 2 true Hi Hi) as (_ & _ & _ & H).
    apply H; [reflexivity | lia | lia | in_range_solve].
  - assert (Hi : U64.in_range 0) by in_range_solve.
    assert (Ho : U64.in_range 1) by in_range_solve.
    destruct (EstimateFee_delegates_within_uint64 DefaultMainnetParams
                0 1 false Hi Ho) as (_ & H & _).
    apply H; [reflexivity | left; reflexivity].
Defined.

(** C5 as stated fails: with the mainnet params and [2^62] inputs the
    size [200 + 140 * 2^62 + 65] exceeds [MaxTxSize], so [MinFee] on it
    fails; but [140 * 2^62] is a multiple of [2^64], the estimate wraps to
    265 bytes and [EstimateFee] succeeds with the fee of 265 bytes. *)
Lemma EstimateFee_delegates_counterexample :
  params_in_range DefaultMainnetParams /\
  Validate DefaultMainnetParams = None /\
  U64.in_range (2 ^ 62) /\
  EstimateFee DefaultMainnetParams (2 ^ 62) 1 false = Ok 167041 /\
  MaxTxSize DefaultMainnetParams < 200 + 140 * 2 ^ 62 + 65 * 1 + 0 /\
  is_FeeError (MinFee DefaultMainnetParams (200 + 140 * 2 ^ 62 + 65 * 1 + 0))
  = true /\
  ~ AsStated.EstimateFee_delegates.
Proof.
  assert (Hp : params_in_range DefaultMainnetParams) by in_range_solve.
  assert (Hi : U64.in_range (2 ^ 62)) by in_range_solve.
  assert (Ho : U64.in_range 1) by in_range_solve.
  split; [exact Hp |]. split; [reflexivity |]. split; [exact Hi |].
  split; [reflexivity |]. split; [reflexivity |]. split; [reflexivity |].
  intros H.
  specialize (H DefaultMainnetParams (2 ^ 62) 1 false Hp Hi Ho eq_refl
                ltac:(discriminate) ltac:(discriminate)).
  assert (E : EstimateFee DefaultMainnetParams (2 ^ 62) 1 false = Ok 167041)
    by reflexivity.
  rewrite E in H.
  assert (F : is_FeeError
                (MinFee DefaultMainnetParams
                        (200 + 140 * 2 ^ 62 + 65 * 1 + 0)) = true)
    by reflexivity.
  rewrite <- H in F. discriminate F.
Qed.


(** * The structural output size and minUTxO *)

Lemma EstimateOutputBytes_wrap (out : OutputSize) :
  EstimateOutputBytes out = U64.wrap (output_bytes_exact out).
Proof.
  unfold EstimateOutputBytes, output_bytes_exact, envelopeOverhead,
         adaValueBytes, policyHashBytes, perAssetOverhead, perAssetIntBytes,
         tokenBundleFixed, datumHashBytes.
  cbv zeta.
  destruct ((NumAssets out >? 0) || (NumPolicies out >? 0));
    destruct (HasDatumHash out); destruct (HasInlineDatum out);
    destruct (HasScriptRef out);
    push_wrap; f_equal; ring.
Qed.

Lemma output_bytes_exact_lower (out : OutputSize) :
  output_in_range out -> 19 <= output_bytes_exact out.
Proof.
  unfold output_in_range, U64.in_range, output_bytes_exact.
  intros (Ha & Hp & Hn & Hb & Hd & Hs).
  destruct ((NumAssets out >? 0) || (NumPolicies out >? 0));
    destruct (HasDatumHash out); destruct (HasInlineDatum out);
    destruct (HasScriptRef out); lia.
Qed.

Lemma EstimateOutputBytes_exact (out : OutputSize) :
  output_in_range out -> output_bytes_exact out <= U64.MaxUint64 ->
  EstimateOutputBytes out = output_bytes_exact out.
Proof.
  intros Ho Hfit. rewrite EstimateOutputBytes_wrap.
  apply U64Facts.wrap_small.
  pose proof (output_bytes_exact_lower out Ho). unfold U64.in_range. lia.
Qed.

Lemma MinUTxO_valid (p : ProtocolParams) (out : OutputSize) :
  Validate p = None ->
  MinUTxO p out = MinUTxOFromBytes p (EstimateOutputBytes out).
Proof. intros Hv. unfold MinUTxO. rewrite Hv. reflexivity. Qed.

Lemma MinUTxO_Ok_inv (p : ProtocolParams) (out : OutputSize) (r : Z) :
  MinUTxO p out = Ok r ->
  Validate p = None /\ EstimateOutputBytes out <> 0 /\
  r = U64.mul (U64.add 160 (EstimateOutputBytes out)) (CoinsPerUTxOByte p).
Proof.
  unfold MinUTxO, MinUTxOFromBytes.
  destruct (Validate p); [discriminate |].
  cbv zeta.
  destruct (Z.eqb_spec (EstimateOutputBytes out) 0) as [| Hnz];
    [discriminate |].
  intros E. inversion E. auto.
Qed.

(** With a size and an amount that fit, [MinUTxO] is the exact formula. *)
Lemma MinUTxO_exact (p : ProtocolParams) (out : OutputSize) :
  params_in_range p -> Validate p = None -> output_in_range out ->
  (160 + output_bytes_exact out) * CoinsPerUTxOByte p <= U64.MaxUint64 ->
  MinUTxO p out = Ok ((160 + output_bytes_exact out) * CoinsPerUTxOByte p).
Proof.
  intros Hp Hv Ho Hfit.
  destruct (valid_params_positive p Hp Hv) as (_ & _ & Hc & _).
  pose proof (output_bytes_exact_lower out Ho) as Hlow.
  rewrite MinUTxO_valid by assumption.
  rewrite EstimateOutputBytes_exact by (auto; nia).
  rewrite MinUTxOFromBytes_valid_nonzero by (auto; lia).
  rewrite utxo_exact; auto; lia.
Qed.

Lemma MinUTxO_succeeds_within_uint64 (p : ProtocolParams) (out : OutputSize) :
  Validate p = None -> output_in_range out ->
  output_bytes_exact out <= U64.MaxUint64 ->
  MinUTxO p out
  = Ok (U64.mul (U64.add 160 (output_bytes_exact out)) (CoinsPerUTxOByte p)).
Proof.
  intros Hv Ho Hfit.
  pose proof (output_bytes_exact_lower out Ho) as Hlow.
  rewrite MinUTxO_valid by assumption.
  rewrite EstimateOutputBytes_exact by assumption.
  apply MinUTxOFromBytes_valid_nonzero; [assumption | lia].
Qed.

Lemma ada_only_output_bytes : output_bytes_exact ada_only_output = 76.
Proof. reflexivity. Qed.

Lemma nft_output_bytes (n : Z) :
  output_bytes_exact (nft_output n) = 126 + n.
Proof.
  unfold output_bytes_exact, nft_output. cbn -[Z.add Z.mul Z.gtb].
  change (1 >? 0) with true. cbn [orb]. lia.
Qed.

Lemma bundle_output_bytes (np na nb : Z) :
  0 < np -> output_bytes_exact (bundle_output np na nb)
            = 81 + 28 * np + 17 * na + nb.
Proof.
  intros Hnp. unfold output_bytes_exact, bundle_output.
  cbn -[Z.add Z.mul Z.gtb].
  destruct (Z.gtb_spec np 0); [| lia].
  rewrite orb_true_r. lia.
Qed.

Lemma MinUTxOForNFT_in_cap (p : ProtocolParams) (n : Z) :
  n <= 32 -> MinUTxOForNFT p n = MinUTxO p (nft_output n).
Proof.
  intros Hn. unfold MinUTxOForNFT.
  destruct (Z.gtb_spec n 32); [lia | reflexivity].
Qed.

Lemma MinUTxOForBundle_nonzero (p : ProtocolParams) (np na nb : Z) :
  np <> 0 -> na <> 0 ->
  MinUTxOForBundle p np na nb = MinUTxO p (bundle_output np na nb).
Proof.
  intros Hnp Hna. unfold MinUTxOForBundle.
  destruct (Z.eqb_spec np 0); [contradiction |].
  destruct (Z.eqb_spec na 0); [contradiction | reflexivity].
Qed.

Lemma MinUTxOForBundle_Ok_inv (p : ProtocolParams) (np na nb r : Z) :
  MinUTxOForBundle p np na nb = Ok r ->
  np <> 0 /\ na <> 0 /\ MinUTxO p (bundle_output np na nb) = Ok r.
Proof.
  unfold MinUTxOForBundle.
  destruct (Z.eqb_spec np 0) as [| Hnp]; [discriminate |].
  destruct (Z.eqb_spec na 0) as [| Hna]; [discriminate |].
  auto.
Qed.

(** C6 (amended). For valid params, [MinUTxOForNFT] fails for every
    [assetNameLen > 32]; for [assetNameLen] in [0, 32] it succeeds, and
    its result strictly exceeds that of [MinUTxOADAOnly] whenever the NFT
    amount [(160 + 126 + assetNameLen) * CoinsPerUTxOByte] fits in a
    uint64. *)
Theorem MinUTxOForNFT_within_uint64 (p : ProtocolParams) (assetNameLen : Z)
    (Hp : params_in_range p) (Hv : Validate p = None)
    (Hn : U64.in_range assetNameLen) :
  (32 < assetNameLen ->
   is_MinUTxOError (MinUTxOForNFT p assetNameLen) = true) /\
  (assetNameLen <= 32 ->
   exists v a,
     MinUTxOForNFT p assetNameLen = Ok v /\ MinUTxOADAOnly p = Ok a /\
     ((160 + 126 + assetNameLen) * CoinsPerUTxOByte p <= U64.MaxUint64 ->
      a < v)).
Proof.
  destruct (valid_params_positive p Hp Hv) as (_ & _ & Hc & _).
  split.
  - intros Hgt. unfold MinUTxOForNFT.
    destruct (Z.gtb_spec assetNameLen 32); [reflexivity | lia].
  - intros Hle. unfold U64.in_range in Hn.
    assert (Hon : output_in_range (nft_output assetNameLen))
      by (unfold output_in_range, nft_output, U64.in_range, U64.MaxUint64;
          simpl; lia).
    assert (Hoa : output_in_range ada_only_output) by in_range_solve.
    rewrite MinUTxOForNFT_in_cap by assumption.
    unfold MinUTxOADAOnly. fold ada_only_output.
    rewrite (MinUTxO_succeeds_within_uint64 p (nft_output assetNameLen))
      by (auto; rewrite nft_output_bytes; unfold U64.MaxUint64; lia).
    rewrite (MinUTxO_succeeds_within_uint64 p ada_only_output)
      by (auto; rewrite ada_only_output_bytes; unfold U64.MaxUint64; lia).
    do 2 eexists. split; [reflexivity |]. split; [reflexivity |].
    intros Hfit. rewrite nft_output_bytes, ada_only_output_bytes.
    rewrite !utxo_exact by nia. nia.
Qed.

Lemma MinUTxOForNFT_within_uint64_witness :
  is_MinUTxOError (MinUTxOForNFT DefaultMainnetParams 33) = true /\
  exists v a,
    MinUTxOForNFT DefaultMainnetParams 32 = Ok v /\
    MinUTxOADAOnly DefaultMainnetParams = Ok a /\ a < v.
Proof.
  assert (Hp : params_in_range DefaultMainnetParams) by in_range_solve.
  assert (Hv : Validate DefaultMainnetParams = None) by reflexivity.
  split.
  - assert (Hn : U64.in_range 33) by in_range_solve.
    destruct (MinUTxOForNFT_within_uint64 DefaultMainnetParams 33 Hp Hv Hn)
      as (Hfail & _).
    apply Hfail. lia.
  - assert (Hn : U64.in_range 32) by in_range_solve.
    destruct (MinUTxOForNFT_within_uint64 DefaultMainnetParams 32 Hp Hv Hn)
      as (_ & Hok).
    destruct (Hok ltac:(lia)) as (v & a & Ev & Ea & Hlt).
    exists v, a. split; [exact Ev |]. split; [exact Ea |].
    apply Hlt. in_range_solve.
Defined.

(** C6 as stated fails: with [CoinsPerUTxOByte = 2^61] and a two-byte
    name the NFT amount [288 * 2^61] is a multiple of [2^64], so
    [MinUTxOForNFT] returns 0, below the ADA-only result [2^63]. *)
Lemma MinUTxOForNFT_exceeds_counterexample :
  let p := mkParams 1 1 (2 ^ 61) 1 in
  params_in_range p /\ Validate p = None /\
  MinUTxOForNFT p 2 = Ok 0 /\
  MinUTxOADAOnly p = Ok 9223372036854775808 /\
  ~ AsStated.MinUTxOForNFT_exceeds_ADAOnly.
Proof.
  assert (Hp : params_in_range (mkParams 1 1 (2 ^ 61) 1)) by in_range_solve.
  cbv zeta. split; [exact Hp |]. repeat (split; [reflexivity |]).
  intros H.
  destruct (H (mkParams 1 1 (2 ^ 61) 1) 2 Hp eq_refl ltac:(lia))
    as (v & a & Ev & Ea & Hlt).
  assert (Ev' : MinUTxOForNFT (mkParams 1 1 (2 ^ 61) 1) 2 = Ok 0)
    by reflexivity.
  assert (Ea' : MinUTxOADAOnly (mkParams 1 1 (2 ^ 61) 1)
                = Ok 9223372036854775808) by reflexivity.
  rewrite Ev' in Ev. rewrite Ea' in Ea.
  inversion Ev. inversion Ea. lia.
Qed.

(** A successful bundle call whose exact amount fits returns that amount. *)
Lemma MinUTxOForBundle_Ok_exact (p : ProtocolParams) (np na nb r : Z) :
  params_in_range p -> Validate p = None ->
  U64.in_range np -> U64.in_range na -> U64.in_range nb ->
  (160 + (81 + 28 * np + 17 * na + nb)) * CoinsPerUTxOByte p
  <= U64.MaxUint64 ->
  MinUTxOForBundle p np na nb = Ok r ->
  r = (160 + (81 + 28 * np + 17 * na + nb)) * CoinsPerUTxOByte p.
Proof.
  intros Hp Hv Hnp Hna Hnb Hfit E.
  destruct (MinUTxOForBundle_Ok_inv p np na nb r E) as (Hnp0 & Hna0 & E').
  assert (Hpos : 0 < np) by (unfold U64.in_range in Hnp; lia).
  assert (Ho : output_in_range (bundle_output np na nb)).
  { unfold output_in_range, bundle_output. simpl.
    repeat split; try apply Hnp; try apply Hna; try apply Hnb;
      unfold U64.MaxUint64; lia. }
  rewrite MinUTxO_exact in E'
    by (auto; rewrite bundle_output_bytes by assumption; assumption).
  rewrite bundle_output_bytes in E' by assumption.
  inversion E'. reflexivity.
Qed.

(** C7 (amended). [MinUTxOForBundle] fails when [numPolicies] or
    [numAssets] is zero.  For valid params and successful calls, the
    result strictly increases when one of [numPolicies], [numAssets],
    [totalAssetNameBytes] increases and the other two are kept, provided
    the exact amount of the larger bundle,
    [(160 + 81 + 28*numPolicies + 17*numAssets + totalAssetNameBytes)
     * CoinsPerUTxOByte], fits in a uint64. *)
Theorem MinUTxOForBundle_increasing_within_uint64 (p : ProtocolParams)
    (Hp : params_in_range p) (Hv : Validate p = None) :
  (forall np na nb, np = 0 \/ na = 0 ->
     is_MinUTxOError (MinUTxOForBundle p np na nb) = true) /\
  (forall np np' na nb r r',
     U64.in_range np -> U64.in_range np' -> U64.in_range na ->
     U64.in_range nb -> np < np' ->
     (160 + (81 + 28 * np' + 17 * na + nb)) * CoinsPerUTxOByte p
     <= U64.MaxUint64 ->
     MinUTxOForBundle p np na nb = Ok r ->
     MinUTxOForBundle p np' na nb = Ok r' -> r < r') /\
  (forall np na na' nb r r',
     U64.in_range np -> U64.in_range na -> U64.in_range na' ->
     U64.in_range nb -> na < na' ->
     (160 + (81 + 28 * np + 17 * na' + nb)) * CoinsPerUTxOByte p
     <= U64.MaxUint64 ->
     MinUTxOForBundle p np na nb = Ok r ->
     MinUTxOForBundle p np na' nb = Ok r' -> r < r') /\
  (forall np na nb nb' r r',
     U64.in_range np -> U64.in_range na -> U64.in_range nb ->
     U64.in_range nb' -> nb < nb' ->
     (160 + (81 + 28 * np + 17 * na + nb')) * CoinsPerUTxOByte p
     <= U64.MaxUint64 ->
     MinUTxOForBundle p np na nb = Ok r ->
     MinUTxOForBundle p np na nb' = Ok r' -> r < r').
Proof.
  destruct (valid_params_positive p Hp Hv) as (_ & _ & Hc & _).
  split; [| split; [| split]].
  - intros np na nb Hz. unfold MinUTxOForBundle.
    destruct (Z.eqb_spec np 0); [reflexivity |].
    destruct (Z.eqb_spec na 0); [reflexivity | lia].
  - intros np np' na nb r r' Hnp Hnp' Hna Hnb Hlt Hfit E E'.
    unfold U64.in_range in Hnp, Hnp', Hna, Hnb.
    rewrite (MinUTxOForBundle_Ok_exact p np' na nb r') by assumption.
    rewrite (MinUTxOForBundle_Ok_exact p np na nb r)
      by (auto; unfold U64.in_range; nia).
    nia.
  - intros np na na' nb r r' Hnp Hna Hna' Hnb Hlt Hfit E E'.
    unfold U64.in_range in Hnp, Hna, Hna', Hnb.
    rewrite (MinUTxOForBundle_Ok_exact p np na' nb r') by assumption.
    rewrite (MinUTxOForBundle_Ok_exact p np na nb r)
      by (auto; unfold U64.in_range; nia).
    nia.
  - intros np na nb nb' r r' Hnp Hna Hnb Hnb' Hlt Hfit E E'.
    unfold U64.in_range in Hnp, Hna, Hnb, Hnb'.
    rewrite (MinUTxOForBundle_Ok_exact p np na nb' r') by assumption.
    rewrite (MinUTxOForBundle_Ok_exact p np na nb r)
      by (auto; unfold U64.in_range; nia).
    nia.
Qed.

Lemma MinUTxOForBundle_increasing_within_uint64_witness :
  is_MinUTxOError (MinUTxOForBundle DefaultMainnetParams 0 1 10) = true /\
  MinUTxOForBundle DefaultMainnetParams 1 1 10 = Ok 1275760 /\
  MinUTxOForBundle DefaultMainnetParams 2 1 10 = Ok 1396440 /\
  MinUTxOForBundle DefaultMainnetParams 1 5 10 = Ok 1568840 /\
  MinUTxOForBundle DefaultMainnetParams 1 1 50 = Ok 1448160 /\
  1275760 < 1396440 /\ 1275760 < 1568840 /\ 1275760 < 1448160.
Proof.
  assert (Hp : params_in_range DefaultMainnetParams) by in_range_solve.
  assert (Hv : Validate DefaultMainnetParams = None) by reflexivity.
  destruct (MinUTxOForBundle_increasing_within_uint64 DefaultMainnetParams
              Hp Hv) as (Hzero & Hpol & Hast & Hname).
  split; [apply Hzero; left; reflexivity |].
  do 4 (split; [reflexivity |]).
  split; [| split].
  - apply (Hpol 1 2 1 10); try in_range_solve; reflexivity.
  - apply (Hast 1 1 5 10); try in_range_solve; reflexivity.
  - apply (Hname 1 1 10 50); try in_range_solve; reflexivity.
Defined.

(** C7 as stated fails.  With the mainnet params, name bytes
    [2^64 - 1] make the size estimate wrap to 125 bytes, giving a smaller
    result than 10 name bytes; [2^62 + 1] policies give the same estimate
    as one policy, since [28 * 2^62] is a multiple of [2^64]. *)
Lemma MinUTxOForBundle_increasing_counterexample :
  MinUTxOForBundle DefaultMainnetParams 1 1 10 = Ok 1275760 /\
  MinUTxOForBundle DefaultMainnetParams 1 1 U64.MaxUint64 = Ok 1228350 /\
  MinUTxOForBundle DefaultMainnetParams (2 ^ 62 + 1) 1 10 = Ok 1275760 /\
  ~ AsStated.MinUTxOForBundle_increasing_name_bytes /\
  ~ AsStated.MinUTxOForBundle_increasing_policies /\
  ~ AsStated.MinUTxOForBundle_increasing.
Proof.
  assert (Hp : params_in_range DefaultMainnetParams) by in_range_solve.
  assert (Hname : ~ AsStated.MinUTxOForBundle_increasing_name_bytes).
  { intros H.
    assert (C : 1275760 < 1228350).
    { apply (H DefaultMainnetParams 1 1 10 U64.MaxUint64);
        try in_range_solve; reflexivity. }
    lia. }
  assert (Hpol : ~ AsStated.MinUTxOForBundle_increasing_policies).
  { intros H.
    assert (C : 1275760 < 1275760).
    { apply (H DefaultMainnetParams 1 (2 ^ 62 + 1) 1 10);
        try in_range_solve; reflexivity. }
    lia. }
  repeat (split; [reflexivity |]).
  split; [exact Hname |]. split; [exact Hpol |].
  intros (H & _). exact (Hpol H).
Qed.

(** * Checked sums *)

Lemma AddLovelace_fits (a b : Z) :
  U64.in_range a -> U64.in_range b -> a + b <= U64.MaxUint64 ->
  AddLovelace a b = Ok (a + b).
Proof.
  unfold U64.in_range. intros Ha Hb Hfit. unfold AddLovelace.
  rewrite U64Facts.sub_exact by lia.
  destruct (Z.gtb_spec a (U64.MaxUint64 - b)); [lia |].
  rewrite U64Facts.add_exact by lia. reflexivity.
Qed.

Lemma AddLovelace_overflows (a b : Z) :
  U64.in_range a -> U64.in_range b -> U64.MaxUint64 < a + b ->
  AddLovelace a b = Err (AddLovelace_overflow a b).
Proof.
  unfold U64.in_range. intros Ha Hb Hov. unfold AddLovelace.
  rewrite U64Facts.sub_exact by lia.
  destruct (Z.gtb_spec a (U64.MaxUint64 - b)); [reflexivity | lia].
Qed.

Lemma fold_AddLovelace_step_Err (values : list Z) (e : error) :
  fold_left AddLovelace_step values (Err e) = Err e.
Proof. induction values as [| v rest IH]; simpl; auto. Qed.

Lemma SumLovelace_from_fold (values : list Z) (total : Z) :
  SumLovelace_from total values = fold_left AddLovelace_step values (Ok total).
Proof.
  revert total. induction values as [| v rest IH]; intros total; simpl.
  - reflexivity.
  - destruct (AddLovelace total v) as [t' | e].
    + apply IH.
    + symmetry. apply fold_AddLovelace_step_Err.
Qed.

Lemma total_exact_nonneg (values : list Z) :
  Forall U64.in_range values -> 0 <= total_exact values.
Proof.
  induction 1 as [| v rest Hv _ IH]; simpl; [lia |].
  unfold U64.in_range in Hv. lia.
Qed.

(** The loop either adds everything exactly, or stops at the first
    element that takes the running total past [MaxUint64]. *)
Lemma SumLovelace_from_cases (values : list Z) (total : Z) :
  U64.in_range total -> Forall U64.in_range values ->
  (total + total_exact values <= U64.MaxUint64 /\
   SumLovelace_from total values = Ok (total + total_exact values))
  \/
  (exists pre v post,
      values = (pre ++ v :: post)%list /\
      total + total_exact pre <= U64.MaxUint64 /\
      U64.MaxUint64 < total + total_exact pre + v /\
      SumLovelace_from total values
      = Err (AddLovelace_overflow (total + total_exact pre) v)).
Proof.
  intros Ht Hall. revert total Ht.
  induction Hall as [| v rest Hv Hrest IH]; intros total Ht.
  - left. simpl. unfold U64.in_range in Ht. split; [lia |].
    f_equal. lia.
  - destruct (Z_le_gt_dec (total + v) U64.MaxUint64) as [Hfit | Hov].
    + assert (Ht' : U64.in_range (total + v))
        by (unfold U64.in_range in *; lia).
      simpl SumLovelace_from.
      rewrite AddLovelace_fits by assumption.
      destruct (IH (total + v) Ht') as [(Hsum & E) | (pre & w & post & -> & Hpre & Hw & E)].
      * left. simpl total_exact. split; [lia |].
        rewrite E. f_equal. lia.
      * right. exists (v :: pre), w, post. simpl total_exact.
        split; [reflexivity |]. split; [lia |]. split; [lia |].
        rewrite E. do 2 f_equal. lia.
    + right. exists [], v, rest. simpl total_exact.
      unfold U64.in_range in Ht.
      split; [reflexivity |]. split; [lia |]. split; [lia |].
      simpl SumLovelace_from.
      rewrite AddLovelace_overflows by (auto; lia).
      do 2 f_equal. lia.
Qed.

Lemma SumLovelace_from_prefix_overflow (pre post : list Z) (v total : Z) :
  U64.in_range total -> Forall U64.in_range pre -> U64.in_range v ->
  total + total_exact pre <= U64.MaxUint64 ->
  U64.MaxUint64 < total + total_exact pre + v ->
  SumLovelace_from total (pre ++ v :: post)%list
  = AddLovelace (total + total_exact pre) v.
Proof.
  intros Ht Hpre. revert total Ht.
  induction Hpre as [| w pre Hw Hpre IH]; intros total Ht Hv Hfit Hov.
  - simpl. replace (total + 0) with total by lia.
    rewrite AddLovelace_overflows by (auto; simpl in Hov; lia).
    reflexivity.
  - pose proof (total_exact_nonneg pre Hpre) as Hnn.
    simpl total_exact in *. simpl app. simpl SumLovelace_from.
    unfold U64.in_range in Ht, Hw.
    rewrite AddLovelace_fits by (auto; unfold U64.in_range; lia).
    rewrite IH by (auto; unfold U64.in_range; lia).
    f_equal. lia.
Qed.

(** C8. [SumLovelace] is the left fold of [AddLovelace] from zero; the
    empty sequence sums to 0 without error; a sequence whose exact total
    fits in a uint64 sums to that total; and when a prefix sum plus the
    next element exceeds [MaxUint64], [SumLovelace] returns the error of
    [AddLovelace] at the first such element (the prefix before it still
    fits), never a wrapped value. *)
Theorem SumLovelace_left_fold_checked :
  SumLovelace [] = Ok 0 /\
  (forall values, SumLovelace values = SumLovelace_fold values) /\
  (forall values, Forall U64.in_range values ->
     total_exact values <= U64.MaxUint64 ->
     SumLovelace values = Ok (total_exact values)) /\
  (forall pre v post,
     Forall U64.in_range pre -> U64.in_range v ->
     total_exact pre <= U64.MaxUint64 ->
     U64.MaxUint64 < total_exact pre + v ->
     SumLovelace (pre ++ v :: post)%list = AddLovelace (total_exact pre) v /\
     SumLovelace (pre ++ v :: post)%list
     = Err (AddLovelace_overflow (total_exact pre) v)) /\
  (forall values, Forall U64.in_range values ->
     U64.MaxUint64 < total_exact values ->
     exists pre v post,
       values = (pre ++ v :: post)%list /\
       total_exact pre <= U64.MaxUint64 /\
       U64.MaxUint64 < total_exact pre + v /\
       SumLovelace values = Err (AddLovelace_overflow (total_exact pre) v)).
Proof.
  assert (H0 : U64.in_range 0) by in_range_solve.
  split; [reflexivity |].
  split; [intros values; apply SumLovelace_from_fold |].
  split; [| split].
  - intros values Hall Hfit. unfold SumLovelace.
    destruct (SumLovelace_from_cases values 0 H0 Hall)
      as [(_ & E) | (pre & v & post & -> & Hpre & Hov & _)].
    + exact E.
    + exfalso.
      assert (Hsplit : total_exact (pre ++ v :: post)%list
                       = total_exact pre + (v + total_exact post)).
      { clear. induction pre as [| w pre IH]; simpl; [reflexivity |].
        rewrite IH. lia. }
      apply Forall_app in Hall. destruct Hall as (_ & Hvpost).
      inversion Hvpost as [| ? ? _ Hpost]; subst.
      pose proof (total_exact_nonneg post Hpost). lia.
  - intros pre v post Hpre Hv Hfit Hov. unfold SumLovelace.
    pose proof (total_exact_nonneg pre Hpre) as Hnn.
    rewrite SumLovelace_from_prefix_overflow by (auto; lia).
    simpl. split; [reflexivity |].
    apply AddLovelace_overflows; auto. unfold U64.in_range. lia.
  - intros values Hall Hov. unfold SumLovelace.
    destruct (SumLovelace_from_cases values 0 H0 Hall)
      as [(Hfit & _) | (pre & v & post & E & Hpre & Hov' & Herr)].
    + lia.
    + exists pre, v, post. simpl in *. auto.
Qed.

Lemma SumLovelace_left_fold_checked_witness :
  SumLovelace [1000000; 2000000; 500000] = Ok 3500000 /\
  SumLovelace ([5; U64.MaxUint64 - 5] ++ 1 :: [7])%list
  = Err (AddLovelace_overflow U64.MaxUint64 1).
Proof.
  destruct SumLovelace_left_fold_checked as (_ & _ & Hfit & Hov & _).
  split.
  - apply (Hfit [1000000; 2000000; 500000]).
    + repeat constructor; in_range_solve.
    + in_range_solve.
  - apply (Hov [5; U64.MaxUint64 - 5] 1 [7]).
    + repeat constructor; in_range_solve.
    + in_range_solve.
    + in_range_solve.
    + in_range_solve.
Defined.

(** * Padding *)

(** C9 (amended). For all params and all byte counts [x], [y] whose
    total [x + y] fits in a uint64, [MinFeeWithPadding p x y] returns
    exactly the result of [MinFee p (x + y)]: the same value on success,
    failure under the same conditions on the padded total. *)
Theorem MinFeeWithPadding_within_uint64 (p : ProtocolParams) (x y : Z)
    (Hx : U64.in_range x) (Hy : U64.in_range y)
    (Hfit : x + y <= U64.MaxUint64) :
  MinFeeWithPadding p x y = MinFee p (x + y) /\
  (is_ok (MinFeeWithPadding p x y) = true <->
   Validate p = None /\ x + y <> 0 /\ x + y <= MaxTxSize p).
Proof.
  assert (E : MinFeeWithPadding p x y = MinFee p (x + y)).
  { unfold MinFeeWithPadding, U64.in_range in *.
    rewrite U64Facts.add_exact by lia. reflexivity. }
  split; [exact E |]. rewrite E.
  unfold MinFee. destruct (Validate p) as [e |].
  - simpl. split; [discriminate | intros (H & _); discriminate].
  - destruct (Z.eqb_spec (x + y) 0) as [Hz | Hnz].
    + simpl. split; [discriminate | intros (_ & Hne & _); contradiction].
    + destruct (Z.gtb_spec (x + y) (MaxTxSize p)) as [Hgt | Hle]; simpl.
      * split; [discriminate | intros (_ & _ & Hbound); lia].
      * split; [intros _; repeat split; auto | reflexivity].
Qed.

Lemma MinFeeWithPadding_within_uint64_witness :
  MinFeeWithPadding DefaultMainnetParams 200 100
  = MinFee DefaultMainnetParams 300 /\
  is_ok (MinFeeWithPadding DefaultMainnetParams 200 100) = true.
Proof.
  assert (Hx : U64.in_range 200) by in_range_solve.
  assert (Hy : U64.in_range 100) by in_range_solve.
  assert (Hfit : 200 + 100 <= U64.MaxUint64) by in_range_solve.
  destruct (MinFeeWithPadding_within_uint64 DefaultMainnetParams 200 100
              Hx Hy Hfit) as (Heq & Hok).
  split; [exact Heq |].
  apply Hok. split; [reflexivity |]. split; [discriminate | in_range_solve].
Defined.

(** C9 as stated fails: with the mainnet params, a size of [2^64 - 1]
    and 301 bytes of padding give the total [2^64 + 300], above
    [MaxTxSize], on which [MinFee] fails; the sum wraps to 300 and
    [MinFeeWithPadding] succeeds with the fee of 300 bytes. *)
Lemma MinFeeWithPadding_total_counterexample :
  U64.in_range U64.MaxUint64 /\ U64.in_range 301 /\
  MinFeeWithPadding DefaultMainnetParams U64.MaxUint64 301 = Ok 168581 /\
  MaxTxSize DefaultMainnetParams < U64.MaxUint64 + 301 /\
  is_FeeError (MinFee DefaultMainnetParams (U64.MaxUint64 + 301)) = true /\
  ~ AsStated.MinFeeWithPadding_is_MinFee_of_total.
Proof.
  assert (Hx : U64.in_range U64.MaxUint64) by in_range_solve.
  assert (Hy : U64.in_range 301) by in_range_solve.
  split; [exact Hx |]. split; [exact Hy |].
  split; [reflexivity |]. split; [reflexivity |]. split; [reflexivity |].
  intros H.
  specialize (H DefaultMainnetParams U64.MaxUint64 301 Hx Hy).
  assert (E : MinFeeWithPadding DefaultMainnetParams U64.MaxUint64 301
              = Ok 168581) by reflexivity.
  rewrite E in H.
  assert (F : is_FeeError
                (MinFee DefaultMainnetParams (U64.MaxUint64 + 301)) = true)
    by reflexivity.
  rewrite <- H in F. discriminate F.
Qed.

(** * The zero-byte branch *)

Lemma IsAboveMinUTxO_of_MinUTxO (p : ProtocolParams) (out : OutputSize)
    (required lovelace : Z) :
  MinUTxO p out = Ok required ->
  IsAboveMinUTxO p lovelace out = Ok (lovelace >=? required, required).
Proof. intros E. unfold IsAboveMinUTxO. rewrite E. reflexivity. Qed.

(** C10 (amended). For every [OutputSize] whose exact size sum fits in a
    uint64, [EstimateOutputBytes] returns that sum, which is at least 19;
    hence for valid params [MinUTxO] succeeds without reaching the
    zero-byte branch of [MinUTxOFromBytes], and [IsAboveMinUTxO] succeeds
    with the same required amount.  [MinUTxOADAOnly] and, for a name of at
    most 32 bytes, [MinUTxOForNFT] always succeed for valid params;
    [MinUTxOForBundle] with non-zero counts succeeds whenever its size
    sum fits. *)
Theorem EstimateOutputBytes_at_least_19_within_uint64 (out : OutputSize)
    (Ho : output_in_range out)
    (Hfit : output_bytes_exact out <= U64.MaxUint64) :
  EstimateOutputBytes out = output_bytes_exact out /\
  19 <= EstimateOutputBytes out /\
  (forall p, Validate p = None ->
     MinUTxO p out <> Err (MinUTxOError zero_bytes_reason) /\
     exists required,
       MinUTxO p out = Ok required /\
       forall lovelace,
         IsAboveMinUTxO p lovelace out
         = Ok (lovelace >=? required, required)) /\
  (forall p, Validate p = None -> is_ok (MinUTxOADAOnly p) = true) /\
  (forall p n, Validate p = None -> 0 <= n <= 32 ->
     is_ok (MinUTxOForNFT p n) = true) /\
  (forall p np na nb, Validate p = None ->
     U64.in_range np -> U64.in_range na -> U64.in_range nb ->
     np <> 0 -> na <> 0 ->
     81 + 28 * np + 17 * na + nb <= U64.MaxUint64 ->
     is_ok (MinUTxOForBundle p np na nb) = true).
Proof.
  pose proof (output_bytes_exact_lower out Ho) as Hlow.
  pose proof (EstimateOutputBytes_exact out Ho Hfit) as Hexact.
  split; [exact Hexact |]. split; [rewrite Hexact; exact Hlow |].
  split; [| split; [| split]].
  - intros p Hv.
    pose proof (MinUTxO_succeeds_within_uint64 p out Hv Ho Hfit) as E.
    split; [rewrite E; discriminate |].
    eexists. split; [exact E |].
    intros lovelace. apply IsAboveMinUTxO_of_MinUTxO. exact E.
  - intros p Hv. unfold MinUTxOADAOnly. fold ada_only_output.
    rewrite (MinUTxO_succeeds_within_uint64 p ada_only_output);
      [reflexivity | assumption | in_range_solve |].
    rewrite ada_only_output_bytes. in_range_solve.
  - intros p n Hv Hn.
    rewrite MinUTxOForNFT_in_cap by lia.
    rewrite (MinUTxO_succeeds_within_uint64 p (nft_output n));
      [reflexivity | assumption | |].
    + unfold output_in_range, nft_output, U64.in_range, U64.MaxUint64.
      simpl. lia.
    + rewrite nft_output_bytes. unfold U64.MaxUint64. lia.
  - intros p np na nb Hv Hnp Hna Hnb Hnp0 Hna0 Hsum.
    rewrite MinUTxOForBundle_nonzero by assumption.
    assert (Hpos : 0 < np) by (unfold U64.in_range in Hnp; lia).
    rewrite (MinUTxO_succeeds_within_uint64 p (bundle_output np na nb));
      [reflexivity | assumption | |].
    + unfold output_in_range, bundle_output. simpl.
      repeat split; try apply Hnp; try apply Hna; try apply Hnb;
        unfold U64.MaxUint64; lia.
    + rewrite bundle_output_bytes by assumption. exact Hsum.
Qed.

Lemma EstimateOutputBytes_at_least_19_within_uint64_witness :
  EstimateOutputBytes ada_only_output = 76 /\
  19 <= EstimateOutputBytes ada_only_output /\
  MinUTxO DefaultMainnetParams ada_only_output
  <> Err (MinUTxOError zero_bytes_reason).
Proof.
  assert (Ho : output_in_range ada_only_output) by in_range_solve.
  assert (Hfit : output_bytes_exact ada_only_output <= U64.MaxUint64)
    by (rewrite ada_only_output_bytes; in_range_solve).
  destruct (EstimateOutputBytes_at_least_19_within_uint64
              ada_only_output Ho Hfit) as (Hexact & Hlow & Hmin & _).
  split; [exact Hexact |]. split; [exact Hlow |].
  apply (Hmin DefaultMainnetParams). reflexivity.
Defined.

(** C10 as stated fails: an address length of [2^64 - 19] makes the sum
    [10 + AddressBytes + 9] wrap to 0, so [EstimateOutputBytes] returns 0
    and [MinUTxO], [IsAboveMinUTxO] fail in the zero-byte branch; so does
    [MinUTxOForBundle] with [2^64 - 126] name bytes. *)
Lemma EstimateOutputBytes_at_least_19_counterexample :
  let out := mkOutputSize (2 ^ 64 - 19) 0 0 0 false false 0 false 0 in
  output_in_range out /\
  EstimateOutputBytes out = 0 /\
  MinUTxO DefaultMainnetParams out = Err (MinUTxOError zero_bytes_reason) /\
  IsAboveMinUTxO DefaultMainnetParams 2000000 out
  = Err (MinUTxOError zero_bytes_reason) /\
  MinUTxOForBundle DefaultMainnetParams 1 1 (2 ^ 64 - 126)
  = Err (MinUTxOError zero_bytes_reason) /\
  ~ AsStated.EstimateOutputBytes_at_least_19 /\
  ~ AsStated.MinUTxO_always_succeeds.
Proof.
  assert (Ho : output_in_range
                 (mkOutputSize (2 ^ 64 - 19) 0 0 0 false false 0 false 0))
    by in_range_solve.
  cbv zeta. split; [exact Ho |]. do 4 (split; [reflexivity |]).
  split.
  - intros H. specialize (H _ Ho).
    assert (E : EstimateOutputBytes
                  (mkOutputSize (2 ^ 64 - 19) 0 0 0 false false 0 false 0) = 0)
      by reflexivity.
    rewrite E in H. lia.
  - intros H.
    assert (Hp : params_in_range DefaultMainnetParams) by in_range_solve.
    specialize (H DefaultMainnetParams _ Hp eq_refl Ho).
    assert (E : MinUTxO DefaultMainnetParams
                  (mkOutputSize (2 ^ 64 - 19) 0 0 0 false false 0 false 0)
                = Err (MinUTxOError zero_bytes_reason)) by reflexivity.
    rewrite E in H. discriminate.
Qed.


(** * Further properties of the fee calculator *)

(** X1. [Validate] accepts exactly the params whose four fields are all
    non-zero, and otherwise names the first zero field in the order
    MinFeeA, MinFeeB, CoinsPerUTxOByte, MaxTxSize. *)
Theorem Validate_reports_first_zero_field (p : ProtocolParams) :
  (Validate p = None <->
   MinFeeA p <> 0 /\ MinFeeB p <> 0 /\
   CoinsPerUTxOByte p <> 0 /\ MaxTxSize p <> 0) /\
  (MinFeeA p = 0 ->
   Validate p = Some (ParamError "MinFeeA" "must be non-zero")) /\
  (MinFeeA p <> 0 -> MinFeeB p = 0 ->
   Validate p = Some (ParamError "MinFeeB" "must be non-zero")) /\
  (MinFeeA p <> 0 -> MinFeeB p <> 0 -> CoinsPerUTxOByte p = 0 ->
   Validate p = Some (ParamError "CoinsPerUTxOByte" "must be non-zero")) /\
  (MinFeeA p <> 0 -> MinFeeB p <> 0 -> CoinsPerUTxOByte p <> 0 ->
   MaxTxSize p = 0 ->
   Validate p = Some (ParamError "MaxTxSize" "must be non-zero")).
Proof.
  split; [apply Validate_None_iff |].
  unfold Validate.
  destruct (Z.eqb_spec (MinFeeA p) 0);
    destruct (Z.eqb_spec (MinFeeB p) 0);
    destruct (Z.eqb_spec (CoinsPerUTxOByte p) 0);
    destruct (Z.eqb_spec (MaxTxSize p) 0);
    repeat split; intros; try reflexivity; contradiction.
Qed.

Lemma Validate_reports_first_zero_field_witness :
  Validate (mkParams 44 0 0 16384)
  = Some (ParamError "MinFeeB" "must be non-zero") /\
  Validate (mkParams 44 155381 4310 16384) = None.
Proof.
  split.
  - destruct (Validate_reports_first_zero_field (mkParams 44 0 0 16384))
      as (_ & _ & H & _).
    apply H; simpl; [discriminate | reflexivity].
  - destruct (Validate_reports_first_zero_field
                (mkParams 44 155381 4310 16384)) as (H & _).
    apply H. simpl. repeat split; discriminate.
Defined.

(** X2. [MinFee] succeeds exactly when the params pass [Validate] and
    the size is non-zero and at most [MaxTxSize] (the bound itself is
    accepted); the value it then returns is
    [MinFeeA * txSizeBytes + MinFeeB] modulo [2^64]. *)
Theorem MinFee_succeeds_iff (p : ProtocolParams) (txSizeBytes : Z) :
  (is_ok (MinFee p txSizeBytes) = true <->
   Validate p = None /\ txSizeBytes <> 0 /\ txSizeBytes <= MaxTxSize p) /\
  (forall fee, MinFee p txSizeBytes = Ok fee ->
     fee = U64.wrap (MinFeeA p * txSizeBytes + MinFeeB p) /\
     U64.in_range fee).
Proof.
  split.
  - unfold MinFee. destruct (Validate p) as [e |].
    + simpl. split; [discriminate | intros (H & _); discriminate].
    + destruct (Z.eqb_spec txSizeBytes 0) as [Hz | Hnz].
      * simpl. split; [discriminate | intros (_ & H & _); contradiction].
      * destruct (Z.gtb_spec txSizeBytes (MaxTxSize p)) as [Hgt | Hle]; simpl.
        -- split; [discriminate | intros (_ & _ & Hbound); lia].
        -- split; [intros _; repeat split; auto; lia | reflexivity].
  - intros fee E.
    destruct (MinFee_Ok_inv p txSizeBytes fee E) as (_ & _ & _ & ->).
    split; [| apply U64Facts.wrap_in_range].
    unfold U64.add, U64.mul. apply U64Facts.add_wrap_l.
Qed.

Lemma MinFee_succeeds_iff_witness :
  is_ok (MinFee DefaultMainnetParams 16384) = true /\
  is_ok (MinFee DefaultMainnetParams 16385) = false.
Proof.
  split.
  - destruct (MinFee_succeeds_iff DefaultMainnetParams 16384) as (H & _).
    apply H. repeat split; [discriminate | in_range_solve].
  - destruct (MinFee_succeeds_iff DefaultMainnetParams 16385) as (H & _).
    destruct (is_ok (MinFee DefaultMainnetParams 16385)); [| reflexivity].
    destruct (proj1 H eq_refl) as (_ & _ & Hle).
    exfalso. revert Hle. in_range_solve.
Defined.

(** X3. When the fee of the larger size fits in a uint64, two
    successful [MinFee] calls differ by [MinFeeA] per byte, and every
    such fee is above the constant [MinFeeB]. *)
Theorem MinFee_charges_MinFeeA_per_byte (p : ProtocolParams)
    (size size' fee fee' : Z)
    (Hp : params_in_range p) (Hsize : 0 <= size <= size')
    (Hfit : MinFeeA p * size' + MinFeeB p <= U64.MaxUint64) :
  MinFee p size = Ok fee -> MinFee p size' = Ok fee' ->
  fee' - fee = MinFeeA p * (size' - size) /\ MinFeeB p < fee.
Proof.
  intros E E'.
  destruct (MinFee_Ok_inv _ _ _ E) as (Hv & Hnz & _ & ->).
  destruct (MinFee_Ok_inv _ _ _ E') as (_ & _ & _ & ->).
  destruct (valid_params_positive p Hp Hv) as (Ha & Hb & _).
  rewrite !fee_exact by nia. split; nia.
Qed.

Lemma MinFee_charges_MinFeeA_per_byte_witness :
  MinFee DefaultMainnetParams 300 = Ok 168581 /\
  MinFee DefaultMainnetParams 350 = Ok 170781 /\
  170781 - 168581 = 44 * (350 - 300) /\ 155381 < 168581.
Proof.
  split; [reflexivity |]. split; [reflexivity |].
  apply (MinFee_charges_MinFeeA_per_byte DefaultMainnetParams
           300 350 168581 170781);
    try in_range_solve; reflexivity.
Defined.

(** X4. Padding: zero padding leaves [MinFee] unchanged; the two byte
    counts are interchangeable; when the padded fee fits in a uint64 the
    padding costs [MinFeeA] per byte; and a padded size above [MaxTxSize]
    is refused although the unpadded size may be accepted. *)
Theorem MinFeeWithPadding_laws (p : ProtocolParams) (size padding : Z) :
  (U64.in_range size -> MinFeeWithPadding p size 0 = MinFee p size) /\
  MinFeeWithPadding p size padding = MinFeeWithPadding p padding size /\
  (forall fee fee',
     params_in_range p -> U64.in_range size -> U64.in_range padding ->
     MinFeeA p * (size + padding) + MinFeeB p <= U64.MaxUint64 ->
     MinFee p size = Ok fee -> MinFeeWithPadding p size padding = Ok fee' ->
     fee' = fee + MinFeeA p * padding) /\
  (Validate p = None -> U64.in_range size -> U64.in_range padding ->
   size + padding <= U64.MaxUint64 -> MaxTxSize p < size + padding ->
   is_FeeError (MinFeeWithPadding p size padding) = true).
Proof.
  split; [| split; [| split]].
  - intros Hs. unfold MinFeeWithPadding, U64.add.
    rewrite Z.add_0_r, U64Facts.wrap_small by assumption. reflexivity.
  - unfold MinFeeWithPadding, U64.add. rewrite Z.add_comm. reflexivity.
  - intros fee fee' Hp Hs Hpad Hfit E E'. unfold MinFeeWithPadding in E'.
    destruct (MinFee_Ok_inv _ _ _ E) as (Hv & _ & _ & ->).
    destruct (MinFee_Ok_inv _ _ _ E') as (_ & _ & _ & ->).
    destruct (valid_params_positive p Hp Hv) as (Ha & Hb & _).
    unfold U64.in_range in Hs, Hpad.
    rewrite (U64Facts.add_exact size padding) by nia.
    rewrite !fee_exact by nia. ring.
  - intros Hv Hs Hpad Hfit Hgt. unfold MinFeeWithPadding, U64.in_range in *.
    rewrite U64Facts.add_exact by lia.
    unfold MinFee. rewrite Hv.
    destruct (Z.eqb_spec (size + padding) 0); [reflexivity |].
    destruct (Z.gtb_spec (size + padding) (MaxTxSize p)); [reflexivity | lia].
Qed.

Lemma MinFeeWithPadding_laws_witness :
  MinFeeWithPadding DefaultMainnetParams 300 0 = MinFee DefaultMainnetParams 300
  /\ 175181 = 168581 + 44 * 150 /\
  is_FeeError (MinFeeWithPadding DefaultMainnetParams 16384 1) = true.
Proof.
  assert (Hp : params_in_range DefaultMainnetParams) by in_range_solve.
  split; [| split].
  - destruct (MinFeeWithPadding_laws DefaultMainnetParams 300 0) as (H & _).
    apply H. in_range_solve.
  - destruct (MinFeeWithPadding_laws DefaultMainnetParams 300 150)
      as (_ & _ & H & _).
    apply H; try in_range_solve; reflexivity.
  - destruct (MinFeeWithPadding_laws DefaultMainnetParams 16384 1)
      as (_ & _ & _ & H).
    apply H; try in_range_solve; reflexivity.
Defined.

(** X5. When the fee of the larger transaction fits in a uint64, a
    successful estimate grows by exactly [140 * MinFeeA] per extra input,
    [65 * MinFeeA] per extra output and [250 * MinFeeA] for metadata. *)
Theorem EstimateFee_marginal_costs (p : ProtocolParams)
    (Hp : params_in_range p) :
  (forall i o m fee fee',
     U64.in_range i -> U64.in_range o ->
     MinFeeA p * estimated_size_exact (i + 1) o m + MinFeeB p
     <= U64.MaxUint64 ->
     EstimateFee p i o m = Ok fee -> EstimateFee p (i + 1) o m = Ok fee' ->
     fee' = fee + 140 * MinFeeA p) /\
  (forall i o m fee fee',
     U64.in_range i -> U64.in_range o ->
     MinFeeA p * estimated_size_exact i (o + 1) m + MinFeeB p
     <= U64.MaxUint64 ->
     EstimateFee p i o m = Ok fee -> EstimateFee p i (o + 1) m = Ok fee' ->
     fee' = fee + 65 * MinFeeA p) /\
  (forall i o fee fee',
     U64.in_range i -> U64.in_range o ->
     MinFeeA p * estimated_size_exact i o true + MinFeeB p
     <= U64.MaxUint64 ->
     EstimateFee p i o false = Ok fee -> EstimateFee p i o true = Ok fee' ->
     fee' = fee + 250 * MinFeeA p).
Proof.
  assert (Hpos : forall i o m fee, EstimateFee p i o m = Ok fee ->
                                   1 <= MinFeeA p /\ 1 <= MinFeeB p).
  { intros i o m fee E.
    destruct (EstimateFee_Ok_inv _ _ _ _ _ E) as (Hv & _).
    destruct (valid_params_positive p Hp Hv) as (Ha & Hb & _). auto. }
  assert (Hsize : forall i o m, U64.in_range i -> U64.in_range o ->
                    200 + 140 * i + 65 * o <= estimated_size_exact i o m).
  { intros i o m _ _. unfold estimated_size_exact. destruct m; lia. }
  split; [| split].
  - intros i o m fee fee' Hi Ho Hfit E E'.
    destruct (Hpos _ _ _ _ E) as (Ha & Hb).
    assert (Hs : estimated_size_exact (i + 1) o m
                 = estimated_size_exact i o m + 140)
      by (unfold estimated_size_exact; lia).
    pose proof (Hsize i o m Hi Ho) as Hlow.
    assert (Hi1 : U64.in_range (i + 1))
      by (unfold U64.in_range in *; nia).
    rewrite (EstimateFee_Ok_exact p (i + 1) o m fee') by assumption.
    rewrite (EstimateFee_Ok_exact p i o m fee) by (auto; nia).
    rewrite Hs. ring.
  - intros i o m fee fee' Hi Ho Hfit E E'.
    destruct (Hpos _ _ _ _ E) as (Ha & Hb).
    assert (Hs : estimated_size_exact i (o + 1) m
                 = estimated_size_exact i o m + 65)
      by (unfold estimated_size_exact; lia).
    pose proof (Hsize i o m Hi Ho) as Hlow.
    assert (Ho1 : U64.in_range (o + 1))
      by (unfold U64.in_range in *; nia).
    rewrite (EstimateFee_Ok_exact p i (o + 1) m fee') by assumption.
    rewrite (EstimateFee_Ok_exact p i o m fee) by (auto; nia).
    rewrite Hs. ring.
  - intros i o fee fee' Hi Ho Hfit E E'.
    destruct (Hpos _ _ _ _ E) as (Ha & Hb).
    assert (Hs : estimated_size_exact i o true
                 = estimated_size_exact i o false + 250)
      by (unfold estimated_size_exact; lia).
    rewrite (EstimateFee_Ok_exact p i o true fee') by assumption.
    rewrite (EstimateFee_Ok_exact p i o false fee) by (auto; nia).
    rewrite Hs. ring.
Qed.

Lemma EstimateFee_marginal_costs_witness :
  EstimateFee DefaultMainnetParams 1 1 false = Ok 173201 /\
  EstimateFee DefaultMainnetParams 2 1 false = Ok 179361 /\
  EstimateFee DefaultMainnetParams 1 1 true = Ok 184201 /\
  179361 = 173201 + 140 * 44 /\ 184201 = 173201 + 250 * 44.
Proof.
  assert (Hp : params_in_range DefaultMainnetParams) by in_range_solve.
  destruct (EstimateFee_marginal_costs DefaultMainnetParams Hp)
    as (Hin & _ & Hmeta).
  do 3 (split; [reflexivity |]). split.
  - apply (Hin 1 1 false 173201 179361); try in_range_solve; reflexivity.
  - apply (Hmeta 1 1 173201 184201); try in_range_solve; reflexivity.
Defined.

(** X6. For valid params and non-zero counts whose size sum fits in a
    uint64, [EstimateFee] succeeds exactly when the estimated size
    [200 + 140*numInputs + 65*numOutputs (+250)] is at most [MaxTxSize],
    and otherwise fails with a [FeeError]; the smallest estimate is 405
    bytes. *)
Theorem EstimateFee_succeeds_iff_size_within_MaxTxSize (p : ProtocolParams)
    (numInputs numOutputs : Z) (hasMetadata : bool)
    (Hv : Validate p = None) (Hi : 1 <= numInputs) (Ho : 1 <= numOutputs)
    (Hfit : estimated_size_exact numInputs numOutputs hasMetadata
            <= U64.MaxUint64) :
  (is_ok (EstimateFee p numInputs numOutputs hasMetadata) = true <->
   estimated_size_exact numInputs numOutputs hasMetadata <= MaxTxSize p) /\
  (MaxTxSize p < estimated_size_exact numInputs numOutputs hasMetadata ->
   is_FeeError (EstimateFee p numInputs numOutputs hasMetadata) = true) /\
  405 <= estimated_size_exact numInputs numOutputs hasMetadata.
Proof.
  assert (Hlow : 405 <= estimated_size_exact numInputs numOutputs hasMetadata)
    by (unfold estimated_size_exact; destruct hasMetadata; lia).
  rewrite EstimateFee_valid_counts by (auto; lia).
  rewrite U64Facts.wrap_small by (unfold U64.in_range; lia).
  unfold MinFee. rewrite Hv.
  destruct (Z.eqb_spec (estimated_size_exact numInputs numOutputs hasMetadata)
                       0); [lia |].
  destruct (Z.gtb_spec (estimated_size_exact numInputs numOutputs hasMetadata)
                       (MaxTxSize p)); simpl.
  - split; [split; [discriminate | lia] |]. split; [reflexivity | exact Hlow].
  - split; [split; [intros _; lia | reflexivity] |]. split; [lia | exact Hlow].
Qed.

Lemma EstimateFee_succeeds_iff_size_within_MaxTxSize_witness :
  is_FeeError (EstimateFee DefaultMainnetParams 116 1 false) = true /\
  is_ok (EstimateFee DefaultMainnetParams 115 1 false) = true.
Proof.
  split.
  - assert (Hfit : estimated_size_exact 116 1 false <= U64.MaxUint64)
      by (unfold estimated_size_exact; in_range_solve).
    destruct (EstimateFee_succeeds_iff_size_within_MaxTxSize
                DefaultMainnetParams 116 1 false eq_refl
                ltac:(lia) ltac:(lia) Hfit) as (_ & Hfail & _).
    apply Hfail. unfold estimated_size_exact. in_range_solve.
  - assert (Hfit : estimated_size_exact 115 1 false <= U64.MaxUint64)
      by (unfold estimated_size_exact; in_range_solve).
    destruct (EstimateFee_succeeds_iff_size_within_MaxTxSize
                DefaultMainnetParams 115 1 false eq_refl
                ltac:(lia) ltac:(lia) Hfit) as (Hiff & _).
    apply Hiff. unfold estimated_size_exact. in_range_solve.
Defined.

(** * Which errors the functions return *)

Lemma MinFee_Err_cases (p : ProtocolParams) (x : Z) (e : error) :
  MinFee p x = Err e ->
  (Validate p = Some e /\ exists f m, e = ParamError f m) \/
  (Validate p = None /\ exists r, e = FeeError r).
Proof.
  unfold MinFee. destruct (Validate p) as [e' |] eqn:Hv.
  - intros E. inversion E; subst. left. split; [reflexivity |].
    apply (Validate_Some_ParamError p e Hv).
  - destruct (x =? 0); [| destruct (x >? MaxTxSize p)];
      intros E; inversion E; right; eauto.
Qed.

Lemma EstimateFee_Err_cases (p : ProtocolParams) (i o : Z) (m : bool)
    (e : error) :
  EstimateFee p i o m = Err e ->
  (Validate p = Some e /\ exists f m, e = ParamError f m) \/
  (Validate p = None /\ exists r, e = FeeError r).
Proof.
  unfold EstimateFee. destruct (Validate p) as [e' |] eqn:Hv.
  - intros E. inversion E; subst. left. split; [reflexivity |].
    apply (Validate_Some_ParamError p e Hv).
  - destruct (i =? 0); [intros E; inversion E; right; eauto |].
    destruct (o =? 0); [intros E; inversion E; right; eauto |].
    cbv zeta. intros E. apply MinFee_Err_cases in E.
    destruct E as [(Hv' & _) | (_ & E)]; [congruence |].
    right. split; [reflexivity | exact E].
Qed.

Lemma MinUTxOFromBytes_Err_cases (p : ProtocolParams) (n : Z) (e : error) :
  MinUTxOFromBytes p n = Err e ->
  (Validate p = Some e /\ exists f m, e = ParamError f m) \/
  (Validate p = None /\ e = MinUTxOError zero_bytes_reason).
Proof.
  unfold MinUTxOFromBytes. destruct (Validate p) as [e' |] eqn:Hv.
  - intros E. inversion E; subst. left. split; [reflexivity |].
    apply (Validate_Some_ParamError p e Hv).
  - destruct (n =? 0); intros E; inversion E. right. auto.
Qed.

Lemma MinUTxO_Err_cases (p : ProtocolParams) (out : OutputSize) (e : error) :
  MinUTxO p out = Err e ->
  (Validate p = Some e /\ exists f m, e = ParamError f m) \/
  (Validate p = None /\ e = MinUTxOError zero_bytes_reason).
Proof.
  unfold MinUTxO. destruct (Validate p) as [e' |] eqn:Hv.
  - intros E. inversion E; subst. left. split; [reflexivity |].
    apply (Validate_Some_ParamError p e Hv).
  - cbv zeta. intros E. apply MinUTxOFromBytes_Err_cases in E.
    destruct E as [(Hv' & _) | (_ & E)]; [congruence |].
    right. split; [reflexivity | exact E].
Qed.

Lemma SumLovelace_from_Err_cases (values : list Z) (total : Z) (e : error) :
  SumLovelace_from total values = Err e ->
  exists a b, e = AddLovelace_overflow a b.
Proof.
  revert total. induction values as [| v rest IH]; intros total; simpl.
  - discriminate.
  - unfold AddLovelace at 1.
    destruct (total >? U64.sub U64.MaxUint64 v).
    + intros E. inversion E. exists total, v. reflexivity.
    + apply IH.
Qed.

Lemma prefix_empty (s : string) : prefix "" s = true.
Proof. destruct s; reflexivity. Qed.

Lemma fee_result_error_shape (p : ProtocolParams) (x y i o : Z) (m : bool)
    (e : error) :
  MinFee p x = Err e \/ MinFeeWithPadding p x y = Err e \/
  EstimateFee p i o m = Err e ->
  (Validate p = Some e /\ exists f m, e = ParamError f m) \/
  (Validate p = None /\ exists r, e = FeeError r).
Proof.
  intros [H | [H | H]].
  - apply (MinFee_Err_cases _ _ _ H).
  - apply (MinFee_Err_cases _ _ _ H).
  - apply (EstimateFee_Err_cases _ _ _ _ _ H).
Qed.

Lemma minutxo_result_error_shape (p : ProtocolParams)
    (n np na nb lovelace : Z) (out : OutputSize) (e : error) :
  MinUTxOFromBytes p n = Err e \/ MinUTxO p out = Err e \/
  MinUTxOADAOnly p = Err e \/ MinUTxOForNFT p n = Err e \/
  MinUTxOForBundle p np na nb = Err e \/
  IsAboveMinUTxO p lovelace out = Err e ->
  (exists f m, e = ParamError f m) \/ (exists r, e = MinUTxOError r).
Proof.
  assert (K : forall e0,
             (Validate p = Some e0 /\ exists f m, e0 = ParamError f m) \/
             (Validate p = None /\ e0 = MinUTxOError zero_bytes_reason) ->
             (exists f m, e0 = ParamError f m) \/
             (exists r, e0 = MinUTxOError r)).
  { intros e0 [(_ & H) | (_ & ->)]; [left; exact H | right; eauto]. }
  intros [H | [H | [H | [H | [H | H]]]]].
  - apply K, (MinUTxOFromBytes_Err_cases _ _ _ H).
  - apply K, (MinUTxO_Err_cases _ _ _ H).
  - apply K, (MinUTxO_Err_cases _ _ _ H).
  - unfold MinUTxOForNFT in H. destruct (n >? 32).
    + inversion H. right. eauto.
    + apply K, (MinUTxO_Err_cases _ _ _ H).
  - unfold MinUTxOForBundle in H.
    destruct (np =? 0); [inversion H; right; eauto |].
    destruct (na =? 0); [inversion H; right; eauto |].
    apply K, (MinUTxO_Err_cases _ _ _ H).
  - unfold IsAboveMinUTxO in H.
    destruct (MinUTxO p out) as [r | e0] eqn:E; [discriminate |].
    inversion H; subst. apply K, (MinUTxO_Err_cases _ _ _ E).
Qed.

Lemma sum_result_error_shape (a b : Z) (values : list Z) (e : error) :
  AddLovelace a b = Err e \/ SumLovelace values = Err e ->
  exists x y, e = AddLovelace_overflow x y.
Proof.
  intros [H | H].
  - unfold AddLovelace in H.
    destruct (a >? U64.sub U64.MaxUint64 b); inversion H.
    exists a, b. reflexivity.
  - apply (SumLovelace_from_Err_cases _ _ _ H).
Qed.

(** X7. The fee functions [MinFee], [MinFeeWithPadding] and
    [EstimateFee] only ever fail with a [ParamError] or a [FeeError]; the
    error is the one [Validate] reports when the params are invalid, and
    a [FeeError] when they are valid. *)
Theorem fee_functions_error_kinds (p : ProtocolParams) (x y i o : Z)
    (m : bool) (e : error) :
  MinFee p x = Err e \/ MinFeeWithPadding p x y = Err e \/
  EstimateFee p i o m = Err e ->
  is_param_or_fee_error e = true /\
  (forall e', Validate p = Some e' -> e = e') /\
  (Validate p = None -> exists reason, e = FeeError reason).
Proof.
  intros H.
  destruct (fee_result_error_shape p x y i o m e H)
    as [(Hv & f & m' & ->) | (Hv & r & ->)].
  - split; [reflexivity |]. split; congruence.
  - split; [reflexivity |]. split; [congruence | eauto].
Qed.

Lemma fee_functions_error_kinds_witness :
  is_param_or_fee_error (FeeError "numInputs must be at least 1") = true.
Proof.
  apply (fee_functions_error_kinds DefaultMainnetParams 0 0 0 1 false).
  right. right. reflexivity.
Defined.

(** X8. The minUTxO functions [MinUTxOFromBytes], [MinUTxO],
    [MinUTxOADAOnly], [MinUTxOForNFT], [MinUTxOForBundle] and
    [IsAboveMinUTxO] only ever fail with a [ParamError] or a
    [MinUTxOError]; [AddLovelace] and [SumLovelace] only with the plain
    overflow error of [AddLovelace]. *)
Theorem minutxo_and_sum_functions_error_kinds (p : ProtocolParams)
    (n np na nb lovelace a b : Z) (out : OutputSize) (values : list Z)
    (e : error) :
  (MinUTxOFromBytes p n = Err e \/ MinUTxO p out = Err e \/
   MinUTxOADAOnly p = Err e \/ MinUTxOForNFT p n = Err e \/
   MinUTxOForBundle p np na nb = Err e \/
   IsAboveMinUTxO p lovelace out = Err e ->
   is_param_or_minutxo_error e = true) /\
  (AddLovelace a b = Err e \/ SumLovelace values = Err e ->
   exists x y, e = AddLovelace_overflow x y).
Proof.
  split.
  - intros H.
    destruct (minutxo_result_error_shape p n np na nb lovelace out e H)
      as [(f & m & ->) | (r & ->)]; reflexivity.
  - apply sum_result_error_shape.
Qed.

Lemma minutxo_and_sum_functions_error_kinds_witness :
  is_param_or_minutxo_error (MinUTxOError "numPolicies must be at least 1")
  = true /\
  exists x y,
    AddLovelace_overflow U64.MaxUint64 1 = AddLovelace_overflow x y.
Proof.
  destruct (minutxo_and_sum_functions_error_kinds DefaultMainnetParams
              0 0 1 0 0 U64.MaxUint64 1 ada_only_output []
              (MinUTxOError "numPolicies must be at least 1")) as (H & _).
  destruct (minutxo_and_sum_functions_error_kinds DefaultMainnetParams
              0 0 1 0 0 U64.MaxUint64 1 ada_only_output []
              (AddLovelace_overflow U64.MaxUint64 1)) as (_ & H').
  split.
  - apply H. do 4 right. left. reflexivity.
  - apply H'. left. reflexivity.
Defined.

(** X9. Every error value these functions return renders, through its
    [Error] method, as a message that starts with ["fees: "]. *)
Theorem every_error_message_starts_with_fees (p : ProtocolParams)
    (x y i o n np na nb lovelace a b : Z) (m : bool) (out : OutputSize)
    (values : list Z) (e : error) :
  Validate p = Some e \/
  (MinFee p x = Err e \/ MinFeeWithPadding p x y = Err e \/
   EstimateFee p i o m = Err e) \/
  (MinUTxOFromBytes p n = Err e \/ MinUTxO p out = Err e \/
   MinUTxOADAOnly p = Err e \/ MinUTxOForNFT p n = Err e \/
   MinUTxOForBundle p np na nb = Err e \/
   IsAboveMinUTxO p lovelace out = Err e) \/
  (AddLovelace a b = Err e \/ SumLovelace values = Err e) ->
  prefix "fees: " (Error e) = true.
Proof.
  intros [H | [H | [H | H]]].
  - destruct (Validate_Some_ParamError p e H) as (f & m' & ->).
    simpl. first [reflexivity | apply prefix_empty].
  - destruct (fee_result_error_shape p x y i o m e H)
      as [(_ & f & m' & ->) | (_ & r & ->)]; simpl;
      first [reflexivity | apply prefix_empty].
  - destruct (minutxo_result_error_shape p n np na nb lovelace out e H)
      as [(f & m' & ->) | (r & ->)]; simpl;
      first [reflexivity | apply prefix_empty].
  - destruct (sum_result_error_shape a b values e H) as (u & v & ->).
    simpl. first [reflexivity | apply prefix_empty].
Qed.

Lemma every_error_message_starts_with_fees_witness :
  prefix "fees: " (Error (AddLovelace_overflow U64.MaxUint64 1)) = true.
Proof.
  apply (every_error_message_starts_with_fees DefaultMainnetParams
           0 0 0 0 0 0 0 0 0 U64.MaxUint64 1 false ada_only_output []).
  do 3 right. left. reflexivity.
Defined.

(** * Further properties of the minUTxO calculator *)

Lemma MinUTxO_is_FromBytes (p : ProtocolParams) (out : OutputSize) :
  MinUTxO p out = MinUTxOFromBytes p (EstimateOutputBytes out).
Proof.
  unfold MinUTxO, MinUTxOFromBytes.
  destruct (Validate p); reflexivity.
Qed.

Lemma EstimateOutputBytes_ada_only : EstimateOutputBytes ada_only_output = 76.
Proof. reflexivity. Qed.

Lemma EstimateOutputBytes_nft (n : Z) :
  0 <= n <= 32 -> EstimateOutputBytes (nft_output n) = 126 + n.
Proof.
  intros Hn. rewrite EstimateOutputBytes_exact.
  - apply nft_output_bytes.
  - unfold output_in_range, nft_output, U64.in_range, U64.MaxUint64.
    simpl. lia.
  - rewrite nft_output_bytes. unfold U64.MaxUint64. lia.
Qed.

Lemma EstimateOutputBytes_bundle (np na nb : Z) :
  U64.in_range np -> U64.in_range na -> U64.in_range nb -> np <> 0 ->
  81 + 28 * np + 17 * na + nb <= U64.MaxUint64 ->
  EstimateOutputBytes (bundle_output np na nb) = 81 + 28 * np + 17 * na + nb.
Proof.
  intros Hnp Hna Hnb Hnz Hfit.
  assert (Hpos : 0 < np) by (unfold U64.in_range in Hnp; lia).
  rewrite EstimateOutputBytes_exact.
  - apply bundle_output_bytes. exact Hpos.
  - unfold output_in_range, bundle_output. simpl.
    repeat split; try apply Hnp; try apply Hna; try apply Hnb;
      unfold U64.MaxUint64; lia.
  - rewrite bundle_output_bytes by exact Hpos. exact Hfit.
Qed.

(** X10. For every params value, valid or not, [MinUTxO] is
    [MinUTxOFromBytes] of the size estimate, and the wrappers are
    [MinUTxOFromBytes] at fixed sizes: 76 bytes for the ADA-only output,
    [126 + assetNameLen] for an NFT with a name of at most 32 bytes, and
    [81 + 28*numPolicies + 17*numAssets + totalAssetNameBytes] for a
    bundle with non-zero counts whose size sum fits in a uint64. *)
Theorem MinUTxO_wrappers_closed_form (p : ProtocolParams) :
  (forall out, MinUTxO p out = MinUTxOFromBytes p (EstimateOutputBytes out)) /\
  MinUTxOADAOnly p = MinUTxOFromBytes p 76 /\
  (forall n, 0 <= n <= 32 ->
     MinUTxOForNFT p n = MinUTxOFromBytes p (126 + n)) /\
  (forall np na nb,
     U64.in_range np -> U64.in_range na -> U64.in_range nb ->
     np <> 0 -> na <> 0 ->
     81 + 28 * np + 17 * na + nb <= U64.MaxUint64 ->
     MinUTxOForBundle p np na nb
     = MinUTxOFromBytes p (81 + 28 * np + 17 * na + nb)).
Proof.
  split; [apply MinUTxO_is_FromBytes |]. split; [| split].
  - unfold MinUTxOADAOnly. fold ada_only_output.
    rewrite MinUTxO_is_FromBytes, EstimateOutputBytes_ada_only. reflexivity.
  - intros n Hn. rewrite MinUTxOForNFT_in_cap by lia.
    rewrite MinUTxO_is_FromBytes, EstimateOutputBytes_nft by assumption.
    reflexivity.
  - intros np na nb Hnp Hna Hnb Hnp0 Hna0 Hfit.
    rewrite MinUTxOForBundle_nonzero by assumption.
    rewrite MinUTxO_is_FromBytes, EstimateOutputBytes_bundle by assumption.
    reflexivity.
Qed.

Lemma MinUTxO_wrappers_closed_form_witness :
  MinUTxOForNFT DefaultMainnetParams 32
  = MinUTxOFromBytes DefaultMainnetParams 158 /\
  MinUTxOForBundle DefaultMainnetParams 2 5 80
  = MinUTxOFromBytes DefaultMainnetParams 302.
Proof.
  destruct (MinUTxO_wrappers_closed_form DefaultMainnetParams)
    as (_ & _ & Hnft & Hbundle).
  split.
  - apply (Hnft 32). lia.
  - apply (Hbundle 2 5 80); try in_range_solve; discriminate.
Defined.

(** X11. An NFT output is a bundle of one policy and one asset: for a
    name of at most 32 bytes [MinUTxOForNFT] and [MinUTxOForBundle] with
    counts 1 and 1 return the same result, for every params value. *)
Theorem MinUTxOForNFT_is_bundle_of_one (p : ProtocolParams)
    (assetNameLen : Z) (Hcap : assetNameLen <= 32) :
  MinUTxOForNFT p assetNameLen = MinUTxOForBundle p 1 1 assetNameLen.
Proof.
  rewrite MinUTxOForNFT_in_cap by assumption.
  rewrite MinUTxOForBundle_nonzero by discriminate.
  reflexivity.
Qed.

Lemma MinUTxOForNFT_is_bundle_of_one_witness :
  MinUTxOForNFT DefaultMainnetParams 8 = MinUTxOForBundle DefaultMainnetParams 1 1 8.
Proof. apply MinUTxOForNFT_is_bundle_of_one. lia. Defined.

(** X12. Order of the checks.  [MinUTxOForNFT] tests the 32-byte cap
    and [MinUTxOForBundle] its two counts (policies first) before the
    params are validated, so these report a [MinUTxOError] even for
    invalid params; past those tests invalid params give the error of
    [Validate].  [MinFee] and [EstimateFee] validate the params first,
    so invalid params win over a zero size or count. *)
Theorem argument_checks_and_validation_order (p : ProtocolParams)
    (e : error) (Hinvalid : Validate p = Some e) :
  (forall n, 32 < n -> is_MinUTxOError (MinUTxOForNFT p n) = true) /\
  (forall n, n <= 32 -> MinUTxOForNFT p n = Err e) /\
  (forall na nb,
     MinUTxOForBundle p 0 na nb
     = Err (MinUTxOError "numPolicies must be at least 1")) /\
  (forall np nb, np <> 0 ->
     MinUTxOForBundle p np 0 nb
     = Err (MinUTxOError "numAssets must be at least 1")) /\
  (forall np na nb, np <> 0 -> na <> 0 ->
     MinUTxOForBundle p np na nb = Err e) /\
  (forall size, MinFee p size = Err e) /\
  (forall i o m, EstimateFee p i o m = Err e) /\
  (forall n, MinUTxOFromBytes p n = Err e) /\
  (forall out lovelace,
     MinUTxO p out = Err e /\ IsAboveMinUTxO p lovelace out = Err e).
Proof.
  assert (Hmin : forall out, MinUTxO p out = Err e)
    by (intros out; unfold MinUTxO; rewrite Hinvalid; reflexivity).
  repeat split.
  - intros n Hn. unfold MinUTxOForNFT.
    destruct (Z.gtb_spec n 32); [reflexivity | lia].
  - intros n Hn. rewrite MinUTxOForNFT_in_cap by assumption. apply Hmin.
  - intros np nb Hnp. unfold MinUTxOForBundle.
    destruct (Z.eqb_spec np 0); [contradiction | reflexivity].
  - intros np na nb Hnp Hna.
    rewrite MinUTxOForBundle_nonzero by assumption. apply Hmin.
  - intros size. unfold MinFee. rewrite Hinvalid. reflexivity.
  - intros i o m. unfold EstimateFee. rewrite Hinvalid. reflexivity.
  - intros n. unfold MinUTxOFromBytes. rewrite Hinvalid. reflexivity.
  - apply Hmin.
  - unfold IsAboveMinUTxO. rewrite Hmin. reflexivity.
Qed.

Lemma argument_checks_and_validation_order_witness :
  is_MinUTxOError (MinUTxOForNFT (mkParams 0 0 0 0) 33) = true /\
  EstimateFee (mkParams 0 0 0 0) 0 0 false
  = Err (ParamError "MinFeeA" "must be non-zero").
Proof.
  destruct (argument_checks_and_validation_order (mkParams 0 0 0 0)
              (ParamError "MinFeeA" "must be non-zero") eq_refl)
    as (Hcap & _ & _ & _ & _ & _ & Hest & _).
  split; [apply Hcap; lia | apply Hest].
Defined.

(** X13. [EstimateOutputBytes] never fails: it returns a uint64, namely
    the exact size sum modulo [2^64], and for a descriptor of uint64
    fields it returns the exact size sum precisely when that sum is at
    most [MaxUint64]. *)
Theorem EstimateOutputBytes_is_size_sum_mod_2_64 (out : OutputSize) :
  U64.in_range (EstimateOutputBytes out) /\
  EstimateOutputBytes out = U64.wrap (output_bytes_exact out) /\
  (output_in_range out ->
   (EstimateOutputBytes out = output_bytes_exact out <->
    output_bytes_exact out <= U64.MaxUint64)).
Proof.
  split; [rewrite EstimateOutputBytes_wrap; apply U64Facts.wrap_in_range |].
  split; [apply EstimateOutputBytes_wrap |].
  intros Ho. split.
  - intros E.
    pose proof (U64Facts.wrap_in_range (output_bytes_exact out)) as Hr.
    rewrite <- EstimateOutputBytes_wrap, E in Hr. apply Hr.
  - apply EstimateOutputBytes_exact. exact Ho.
Qed.

Lemma EstimateOutputBytes_is_size_sum_mod_2_64_witness :
  EstimateOutputBytes (nft_output 9) = output_bytes_exact (nft_output 9).
Proof.
  destruct (EstimateOutputBytes_is_size_sum_mod_2_64 (nft_output 9))
    as (_ & _ & H).
  apply H; [in_range_solve |].
  rewrite nft_output_bytes. in_range_solve.
Defined.

(** X14. Size contributions, when the larger size sum fits in a
    uint64: a datum hash adds exactly 32 bytes; a token bundle with at
    least one policy adds [5 + 28*policies + 17*assets + name bytes] to
    the same output without tokens; in particular an output holding one
    NFT with a 16-byte name is 66 bytes larger than the ADA-only output
    with the same address. *)
Theorem EstimateOutputBytes_contributions
    (addr np na nb idb srb : Z) (dh idf srf : bool)
    (Ho : output_in_range (mkOutputSize addr np na nb dh idf idb srf srb)) :
  (output_bytes_exact (mkOutputSize addr np na nb true idf idb srf srb)
   <= U64.MaxUint64 ->
   EstimateOutputBytes (mkOutputSize addr np na nb true idf idb srf srb)
   = EstimateOutputBytes (mkOutputSize addr np na nb false idf idb srf srb)
     + 32) /\
  (0 < np ->
   output_bytes_exact (mkOutputSize addr np na nb dh idf idb srf srb)
   <= U64.MaxUint64 ->
   EstimateOutputBytes (mkOutputSize addr np na nb dh idf idb srf srb)
   = EstimateOutputBytes (mkOutputSize addr 0 0 0 dh idf idb srf srb)
     + (5 + 28 * np + 17 * na + nb)) /\
  (addr + 85 <= U64.MaxUint64 ->
   EstimateOutputBytes (mkOutputSize addr 1 1 16 false false 0 false 0)
   = EstimateOutputBytes (mkOutputSize addr 0 0 0 false false 0 false 0)
     + 66).
Proof.
  destruct Ho as (Ha & Hnp & Hna & Hnb & Hidb & Hsrb).
  cbn [AddressBytes NumPolicies NumAssets TotalAssetNameBytes
       InlineDatumBytes ScriptRefBytes] in *.
  assert (Hr0 : U64.in_range 0) by in_range_solve.
  assert (Hr1 : U64.in_range 1) by in_range_solve.
  assert (Hr16 : U64.in_range 16) by in_range_solve.
  split; [| split].
  - intros Hfit.
    assert (Hle : output_bytes_exact
                    (mkOutputSize addr np na nb false idf idb srf srb) + 32
                  = output_bytes_exact
                      (mkOutputSize addr np na nb true idf idb srf srb))
      by (unfold output_bytes_exact; cbn -[Z.add Z.mul Z.gtb orb]; lia).
    rewrite !EstimateOutputBytes_exact;
      try (unfold output_in_range; cbn; tauto); lia.
  - intros Hpos Hfit.
    assert (Hflag : (na >? 0) || (np >? 0) = true).
    { destruct (Z.gtb_spec np 0); [apply orb_true_r | lia]. }
    assert (Hle : output_bytes_exact
                    (mkOutputSize addr 0 0 0 dh idf idb srf srb)
                  + (5 + 28 * np + 17 * na + nb)
                  = output_bytes_exact
                      (mkOutputSize addr np na nb dh idf idb srf srb)).
    { unfold output_bytes_exact. cbn -[Z.add Z.mul Z.gtb orb].
      rewrite Hflag. change ((0 >? 0) || (0 >? 0)) with false.
      cbv iota. lia. }
    pose proof Hnp as Hnp'. pose proof Hna as Hna'. pose proof Hnb as Hnb'.
    unfold U64.in_range in Hnp', Hna', Hnb'.
    rewrite !EstimateOutputBytes_exact;
      try (unfold output_in_range; cbn; tauto); lia.
  - intros Hfit. pose proof Ha as Ha'. unfold U64.in_range in Ha'.
    assert (E1 : output_bytes_exact
                   (mkOutputSize addr 1 1 16 false false 0 false 0)
                 = addr + 85)
      by (unfold output_bytes_exact; cbn -[Z.add Z.mul]; lia).
    assert (E0 : output_bytes_exact
                   (mkOutputSize addr 0 0 0 false false 0 false 0)
                 = addr + 19)
      by (unfold output_bytes_exact; cbn -[Z.add Z.mul]; lia).
    rewrite !EstimateOutputBytes_exact;
      try (unfold output_in_range; cbn; tauto); lia.
Qed.

Lemma EstimateOutputBytes_contributions_witness :
  EstimateOutputBytes (mkOutputSize 57 1 1 16 false false 0 false 0)
  = EstimateOutputBytes (mkOutputSize 57 0 0 0 false false 0 false 0) + 66.
Proof.
  assert (Ho : output_in_range
                 (mkOutputSize 57 1 1 16 false false 0 false 0))
    by in_range_solve.
  destruct (EstimateOutputBytes_contributions 57 1 1 16 0 0
              false false false Ho) as (_ & _ & H).
  apply H. in_range_solve.
Defined.

Lemma MinUTxOFromBytes_Ok_inv (p : ProtocolParams) (n r : Z) :
  MinUTxOFromBytes p n = Ok r ->
  Validate p = None /\ n <> 0 /\
  r = U64.mul (U64.add 160 n) (CoinsPerUTxOByte p).
Proof.
  unfold MinUTxOFromBytes. destruct (Validate p); [discriminate |].
  destruct (Z.eqb_spec n 0) as [| Hnz]; [discriminate |].
  intros E. inversion E. auto.
Qed.

(** X15. When the amount for the larger byte count fits in a uint64,
    two successful [MinUTxOFromBytes] calls differ by [CoinsPerUTxOByte]
    per byte, and every such amount is above [160 * CoinsPerUTxOByte]. *)
Theorem MinUTxOFromBytes_charges_per_byte (p : ProtocolParams)
    (n n' r r' : Z)
    (Hp : params_in_range p) (Hn : 0 <= n <= n')
    (Hfit : (160 + n') * CoinsPerUTxOByte p <= U64.MaxUint64) :
  MinUTxOFromBytes p n = Ok r -> MinUTxOFromBytes p n' = Ok r' ->
  r' - r = (n' - n) * CoinsPerUTxOByte p /\ 160 * CoinsPerUTxOByte p < r.
Proof.
  intros E E'.
  destruct (MinUTxOFromBytes_Ok_inv _ _ _ E) as (Hv & Hnz & ->).
  destruct (MinUTxOFromBytes_Ok_inv _ _ _ E') as (_ & _ & ->).
  destruct (valid_params_positive p Hp Hv) as (_ & _ & Hc & _).
  rewrite !utxo_exact by nia. split; nia.
Qed.

Lemma MinUTxOFromBytes_charges_per_byte_witness :
  MinUTxOFromBytes DefaultMainnetParams 100 = Ok 1120600 /\
  MinUTxOFromBytes DefaultMainnetParams 200 = Ok 1551600 /\
  1551600 - 1120600 = (200 - 100) * 4310 /\ 160 * 4310 < 1120600.
Proof.
  split; [reflexivity |]. split; [reflexivity |].
  apply (MinUTxOFromBytes_charges_per_byte DefaultMainnetParams
           100 200 1120600 1551600);
    try in_range_solve; reflexivity.
Defined.

(** X16. For valid params and an output whose amount fits in a uint64,
    [MinUTxO] succeeds with the exact amount
    [(160 + size) * CoinsPerUTxOByte], which is at least
    [(179 + AddressBytes) * CoinsPerUTxOByte] and never zero. *)
Theorem MinUTxO_floor (p : ProtocolParams) (out : OutputSize)
    (Hp : params_in_range p) (Hv : Validate p = None)
    (Ho : output_in_range out)
    (Hfit : (160 + output_bytes_exact out) * CoinsPerUTxOByte p
            <= U64.MaxUint64) :
  MinUTxO p out = Ok ((160 + output_bytes_exact out) * CoinsPerUTxOByte p) /\
  (179 + AddressBytes out) * CoinsPerUTxOByte p
  <= (160 + output_bytes_exact out) * CoinsPerUTxOByte p /\
  0 < (160 + output_bytes_exact out) * CoinsPerUTxOByte p.
Proof.
  destruct (valid_params_positive p Hp Hv) as (_ & _ & Hc & _).
  split; [apply MinUTxO_exact; assumption |].
  assert (Hlow : 19 + AddressBytes out <= output_bytes_exact out).
  { destruct Ho as (Ha & Hnp & Hna & Hnb & Hidb & Hsrb).
    unfold U64.in_range in *. unfold output_bytes_exact.
    destruct ((NumAssets out >? 0) || (NumPolicies out >? 0));
      destruct (HasDatumHash out); destruct (HasInlineDatum out);
      destruct (HasScriptRef out); lia. }
  destruct Ho as (Ha & _). unfold U64.in_range in Ha.
  split; nia.
Qed.

Lemma MinUTxO_floor_witness :
  MinUTxO DefaultMainnetParams ada_only_output = Ok 1017160 /\
  0 < 1017160.
Proof.
  assert (Hp : params_in_range DefaultMainnetParams) by in_range_solve.
  assert (Ho : output_in_range ada_only_output) by in_range_solve.
  assert (Hfit : (160 + output_bytes_exact ada_only_output)
                 * CoinsPerUTxOByte DefaultMainnetParams <= U64.MaxUint64)
    by (rewrite ada_only_output_bytes; in_range_solve).
  destruct (MinUTxO_floor DefaultMainnetParams ada_only_output
              Hp eq_refl Ho Hfit) as (Hval & _ & Hposv).
  split; [exact Hval | exact Hposv].
Defined.

(** X17. [IsAboveMinUTxO] compares against the amount [MinUTxO]
    returns: the answer is true exactly for amounts at or above it (so
    the required amount itself is enough and any larger amount stays
    enough), the required amount is returned either way, and an error of
    [MinUTxO] is passed on unchanged. *)
Theorem IsAboveMinUTxO_threshold (p : ProtocolParams) (out : OutputSize) :
  (forall required lovelace, MinUTxO p out = Ok required ->
     (required <= lovelace ->
      IsAboveMinUTxO p lovelace out = Ok (true, required)) /\
     (lovelace < required ->
      IsAboveMinUTxO p lovelace out = Ok (false, required))) /\
  (forall lovelace lovelace' required, lovelace <= lovelace' ->
     IsAboveMinUTxO p lovelace out = Ok (true, required) ->
     IsAboveMinUTxO p lovelace' out = Ok (true, required)) /\
  (forall lovelace ok required,
     IsAboveMinUTxO p lovelace out = Ok (ok, required) ->
     MinUTxO p out = Ok required) /\
  (forall lovelace e, MinUTxO p out = Err e ->
     IsAboveMinUTxO p lovelace out = Err e).
Proof.
  unfold IsAboveMinUTxO.
  destruct (MinUTxO p out) as [r | e0].
  - split; [| split; [| split]].
    + intros required lovelace E. inversion E; subst. split; intros H.
      * destruct (Z.geb_spec lovelace required); [reflexivity | lia].
      * destruct (Z.geb_spec lovelace required); [lia | reflexivity].
    + intros l l' required Hle E. inversion E; subst.
      destruct (Z.geb_spec l required); [| discriminate].
      destruct (Z.geb_spec l' required); [reflexivity | lia].
    + intros l ok required E. inversion E. reflexivity.
    + intros l e E. discriminate.
  - split; [| split; [| split]].
    + intros required lovelace E. discriminate.
    + intros l l' required _ E. discriminate.
    + intros l ok required E. discriminate.
    + intros l e E. inversion E. reflexivity.
Qed.

Lemma IsAboveMinUTxO_threshold_witness :
  IsAboveMinUTxO DefaultMainnetParams 2000000 ada_only_output
  = Ok (true, 1017160) /\
  IsAboveMinUTxO DefaultMainnetParams 100 ada_only_output
  = Ok (false, 1017160).
Proof.
  destruct (IsAboveMinUTxO_threshold DefaultMainnetParams ada_only_output)
    as (H & _).
  split.
  - apply (H 1017160 2000000); [reflexivity | lia].
  - apply (H 1017160 100); [reflexivity | lia].
Defined.

(** * Further properties of the checked sums *)

(** X18. On uint64 operands [AddLovelace] returns the exact sum when it
    is at most [MaxUint64] and an error otherwise; zero is neutral on
    both sides; swapping the operands does not change success or the
    sum, and a sum is never below either operand. *)
Theorem AddLovelace_checked (a b : Z)
    (Ha : U64.in_range a) (Hb : U64.in_range b) :
  (a + b <= U64.MaxUint64 -> AddLovelace a b = Ok (a + b)) /\
  (U64.MaxUint64 < a + b -> is_ok (AddLovelace a b) = false) /\
  AddLovelace a 0 = Ok a /\ AddLovelace 0 b = Ok b /\
  is_ok (AddLovelace a b) = is_ok (AddLovelace b a) /\
  (forall s, AddLovelace a b = Ok s ->
     AddLovelace b a = Ok s /\ s = a + b /\ a <= s /\ b <= s /\
     U64.in_range s).
Proof.
  assert (H0 : U64.in_range 0) by in_range_solve.
  pose proof Ha as Ha'. pose proof Hb as Hb'.
  unfold U64.in_range in Ha', Hb'.
  split; [intros; apply AddLovelace_fits; assumption |].
  split; [intros; rewrite AddLovelace_overflows by assumption; reflexivity |].
  split; [rewrite AddLovelace_fits by (auto; lia); f_equal; lia |].
  split; [rewrite AddLovelace_fits by (auto; lia); f_equal; lia |].
  destruct (Z_le_gt_dec (a + b) U64.MaxUint64) as [Hfit | Hov].
  - rewrite (AddLovelace_fits a b), (AddLovelace_fits b a) by (auto; lia).
    split; [reflexivity |].
    intros s E. inversion E; subst.
    split; [f_equal; lia |]. unfold U64.in_range. lia.
  - rewrite (AddLovelace_overflows a b), (AddLovelace_overflows b a)
      by (auto; lia).
    split; [reflexivity | discriminate].
Qed.

Lemma AddLovelace_checked_witness :
  AddLovelace 1000000 500000 = Ok (1000000 + 500000) /\
  is_ok (AddLovelace U64.MaxUint64 1) = false.
Proof.
  split.
  - assert (Ha : U64.in_range 1000000) by in_range_solve.
    assert (Hb : U64.in_range 500000) by in_range_solve.
    destruct (AddLovelace_checked 1000000 500000 Ha Hb) as (Hfit & _).
    apply Hfit. in_range_solve.
  - assert (Ha : U64.in_range U64.MaxUint64) by in_range_solve.
    assert (Hb : U64.in_range 1) by in_range_solve.
    destruct (AddLovelace_checked U64.MaxUint64 1 Ha Hb) as (_ & Hov & _).
    apply Hov. in_range_solve.
Defined.

Lemma SumLovelace_Ok_iff (values : list Z) (s : Z) :
  Forall U64.in_range values ->
  (SumLovelace values = Ok s <->
   s = total_exact values /\ total_exact values <= U64.MaxUint64).
Proof.
  intros Hall. unfold SumLovelace.
  assert (H0 : U64.in_range 0) by in_range_solve.
  destruct (SumLovelace_from_cases values 0 H0 Hall)
    as [(Hfit & E) | (pre & v & post & Hsplit & Hpre & Hov & E)];
    rewrite E.
  - simpl. split.
    + intros Es. inversion Es. split; [reflexivity | exact Hfit].
    + intros (-> & _). reflexivity.
  - split; [discriminate |]. intros (_ & Hfit). exfalso.
    assert (Hsum : total_exact values
                   = total_exact pre + (v + total_exact post)).
    { rewrite Hsplit. clear.
      induction pre as [| w pre IH]; simpl; [reflexivity |].
      rewrite IH. lia. }
    rewrite Hsplit in Hall. apply Forall_app in Hall.
    destruct Hall as (_ & Hvpost).
    inversion Hvpost as [| ? ? _ Hpost]; subst.
    pose proof (total_exact_nonneg post Hpost). simpl in *. lia.
Qed.

Lemma total_exact_app (xs ys : list Z) :
  total_exact (xs ++ ys)%list = total_exact xs + total_exact ys.
Proof.
  induction xs as [| x xs IH]; simpl; [reflexivity |]. rewrite IH. lia.
Qed.

Lemma total_exact_Permutation (xs ys : list Z) :
  Permutation xs ys -> total_exact xs = total_exact ys.
Proof. induction 1; simpl; lia. Qed.

(** X19. The order of the amounts does not matter to the outcome of
    [SumLovelace]: a reordered slice of uint64 amounts succeeds exactly
    when the original does, with the same total. *)
Theorem SumLovelace_order_independent (xs ys : list Z)
    (Hperm : Permutation xs ys) (Hall : Forall U64.in_range xs) :
  (forall s, SumLovelace xs = Ok s <-> SumLovelace ys = Ok s) /\
  is_ok (SumLovelace xs) = is_ok (SumLovelace ys).
Proof.
  assert (Hall' : Forall U64.in_range ys)
    by (apply (Permutation_Forall Hperm); exact Hall).
  assert (Hiff : forall s, SumLovelace xs = Ok s <-> SumLovelace ys = Ok s).
  { intros s. rewrite (SumLovelace_Ok_iff xs s Hall).
    rewrite (SumLovelace_Ok_iff ys s Hall').
    rewrite (total_exact_Permutation xs ys Hperm). tauto. }
  split; [exact Hiff |].
  destruct (SumLovelace xs) as [sx | ex] eqn:Ex.
  - rewrite (proj1 (Hiff sx) eq_refl). reflexivity.
  - destruct (SumLovelace ys) as [sy | ey] eqn:Ey; [| reflexivity].
    pose proof (proj2 (Hiff sy) eq_refl). discriminate.
Qed.

Lemma SumLovelace_order_independent_witness :
  SumLovelace [500000; 1000000; 2000000] = Ok 3500000.
Proof.
  assert (Hperm : Permutation [1000000; 2000000; 500000]
                              [500000; 1000000; 2000000]).
  { apply Permutation_sym.
    apply (Permutation_cons_app [1000000; 2000000] [] 500000).
    rewrite app_nil_r. apply Permutation_refl. }
  assert (Hall : Forall U64.in_range [1000000; 2000000; 500000])
    by (repeat constructor; in_range_solve).
  destruct (SumLovelace_order_independent _ _ Hperm Hall) as (H & _).
  apply H. reflexivity.
Defined.

Lemma SumLovelace_from_app (xs ys : list Z) (total : Z) :
  SumLovelace_from total (xs ++ ys)%list
  = match SumLovelace_from total xs with
    | Ok t => SumLovelace_from t ys
    | Err e => Err e
    end.
Proof.
  revert total. induction xs as [| x xs IH]; intros total; simpl.
  - reflexivity.
  - destruct (AddLovelace total x) as [t | e]; [apply IH | reflexivity].
Qed.

(** X20. Concatenation.  Once a prefix fails, [SumLovelace] of any
    extension fails with the same error; and when the two parts of a
    slice of uint64 amounts sum to [sx] and [sy], the whole slice sums
    exactly as [AddLovelace sx sy] decides: the same total when that
    succeeds, a failure when it fails.  In particular
    [SumLovelace [a; b]] is [AddLovelace a b]. *)
Theorem SumLovelace_concatenation (xs ys : list Z) :
  (forall e, SumLovelace xs = Err e -> SumLovelace (xs ++ ys)%list = Err e) /\
  (forall sx sy,
     Forall U64.in_range xs -> Forall U64.in_range ys ->
     SumLovelace xs = Ok sx -> SumLovelace ys = Ok sy ->
     is_ok (SumLovelace (xs ++ ys)%list) = is_ok (AddLovelace sx sy) /\
     forall s, SumLovelace (xs ++ ys)%list = Ok s <-> AddLovelace sx sy = Ok s)
  /\
  (forall a b, U64.in_range a -> SumLovelace [a; b] = AddLovelace a b).
Proof.
  split; [| split].
  - intros e E. unfold SumLovelace in *.
    rewrite SumLovelace_from_app, E. reflexivity.
  - intros sx sy Hx Hy Ex Ey.
    assert (Hxy : Forall U64.in_range (xs ++ ys)%list)
      by (apply Forall_app; auto).
    apply (SumLovelace_Ok_iff xs sx Hx) in Ex. destruct Ex as (-> & Hfx).
    apply (SumLovelace_Ok_iff ys sy Hy) in Ey. destruct Ey as (-> & Hfy).
    pose proof (total_exact_nonneg xs Hx) as Hnx.
    pose proof (total_exact_nonneg ys Hy) as Hny.
    assert (Hrx : U64.in_range (total_exact xs))
      by (unfold U64.in_range; lia).
    assert (Hry : U64.in_range (total_exact ys))
      by (unfold U64.in_range; lia).
    assert (Hiff : forall s, SumLovelace (xs ++ ys)%list = Ok s <->
                             AddLovelace (total_exact xs) (total_exact ys)
                             = Ok s).
    { intros s. rewrite (SumLovelace_Ok_iff _ s Hxy), total_exact_app.
      destruct (Z_le_gt_dec (total_exact xs + total_exact ys) U64.MaxUint64)
        as [Hfit | Hov].
      - rewrite AddLovelace_fits by assumption.
        split; [intros (-> & _); reflexivity |].
        intros E. inversion E. auto.
      - rewrite AddLovelace_overflows by (auto; lia).
        split; [lia | discriminate]. }
    split; [| exact Hiff].
    destruct (SumLovelace (xs ++ ys)%list) as [s | e] eqn:E.
    + rewrite (proj1 (Hiff s) eq_refl). reflexivity.
    + destruct (AddLovelace (total_exact xs) (total_exact ys)) as [s' | e']
        eqn:E'; [| reflexivity].
      pose proof (proj2 (Hiff s') eq_refl). discriminate.
  - intros a b Ha. unfold SumLovelace. simpl.
    assert (H0 : U64.in_range 0) by in_range_solve.
    pose proof Ha as Ha'. unfold U64.in_range in Ha'.
    rewrite (AddLovelace_fits 0 a) by (auto; lia). simpl.
    destruct (AddLovelace a b); reflexivity.
Qed.

Lemma SumLovelace_concatenation_witness :
  SumLovelace ([U64.MaxUint64; 1] ++ [7])%list
  = Err (AddLovelace_overflow U64.MaxUint64 1) /\
  SumLovelace [170781; 1228350] = AddLovelace 170781 1228350.
Proof.
  split.
  - destruct (SumLovelace_concatenation [U64.MaxUint64; 1] [7]) as (H & _).
    apply H. reflexivity.
  - destruct (SumLovelace_concatenation [] []) as (_ & _ & H).
    apply H. in_range_solve.
Defined.

(** * Rendering amounts *)

Lemma to_uint_not_Nil (n : N) : N.to_uint n <> Decimal.Nil.
Proof.
  intros H. pose proof (DecimalN.Unsigned.of_to n) as E.
  rewrite H in E. simpl in E. subst n. discriminate H.
Qed.

Lemma fmt_d_injective (a b : Z) :
  0 <= a -> 0 <= b -> U64.fmt_d a = U64.fmt_d b -> a = b.
Proof.
  intros Ha Hb E. unfold U64.fmt_d in E.
  apply (f_equal NilZero.uint_of_string) in E.
  rewrite !NilZero.usu in E by apply to_uint_not_Nil.
  inversion E as [E'].
  apply DecimalN.Unsigned.to_uint_inj in E'.
  apply Z2N.inj; assumption.
Qed.

Lemma length_append (s t : string) :
  String.length (s ++ t) = (String.length s + String.length t)%nat.
Proof. induction s as [| c s IH]; simpl; [reflexivity | now rewrite IH]. Qed.

Lemma append_cancel_r (s1 s2 t : string) : s1 ++ t = s2 ++ t -> s1 = s2.
Proof.
  revert s2. induction s1 as [| c s1 IH]; intros [| c' s2] E.
  - reflexivity.
  - apply (f_equal String.length) in E. simpl in E.
    rewrite length_append in E. lia.
  - apply (f_equal String.length) in E. simpl in E.
    rewrite length_append in E. lia.
  - simpl in E. inversion E as [[Hc E']]. f_equal. apply IH. exact E'.
Qed.

(** X21. [FormatLovelace] renders distinct amounts as distinct strings:
    two uint64 amounts with the same rendering are equal. *)
Theorem FormatLovelace_injective (a b : Z)
    (Ha : U64.in_range a) (Hb : U64.in_range b) :
  FormatLovelace a = FormatLovelace b -> a = b.
Proof.
  unfold FormatLovelace. intros E.
  apply append_cancel_r in E.
  unfold U64.in_range in Ha, Hb.
  apply fmt_d_injective; [lia | lia | exact E].
Qed.

Lemma FormatLovelace_injective_witness :
  FormatLovelace 1310000 = "1310000 Lovelace" /\ 1310000 = 1310000.
Proof.
  split; [reflexivity |].
  apply (FormatLovelace_injective 1310000 1310000);
    [in_range_solve | in_range_solve | reflexivity].
Defined.

Lemma digits_have_no_space (d : Decimal.uint) :
  has_space (NilEmpty.string_of_uint d) = false.
Proof. induction d; simpl; auto. Qed.

Lemma fmt_d_has_no_space (z : Z) : has_space (U64.fmt_d z) = false.
Proof.
  unfold U64.fmt_d, NilZero.string_of_uint.
  destruct (N.to_uint (Z.to_N z)) eqn:E; try reflexivity;
    rewrite <- E; apply digits_have_no_space.
Qed.

Lemma split_at_first_space (s1 s2 r1 r2 : string) :
  has_space s1 = false -> has_space s2 = false ->
  s1 ++ String " " r1 = s2 ++ String " " r2 -> s1 = s2 /\ r1 = r2.
Proof.
  revert s2. induction s1 as [| c s1 IH]; intros [| c' s2] H1 H2 E;
    simpl in *.
  - injection E as Hr. auto.
  - injection E as Hc Ht. subst c'. discriminate H2.
  - injection E as Hc Ht. subst c. discriminate H1.
  - injection E as Hc Ht. subst c'.
    apply orb_false_iff in H1. apply orb_false_iff in H2.
    destruct (IH s2 (proj2 H1) (proj2 H2) Ht) as (-> & ->). auto.
Qed.

(** X22. The overflow error of [AddLovelace] determines its operands:
    two uint64 pairs that produce the same error value are the same
    pair, so the error of [SumLovelace] identifies the running total and
    the element at which the sum stopped. *)
Theorem AddLovelace_overflow_identifies_operands (a b a' b' : Z)
    (Ha : U64.in_range a) (Hb : U64.in_range b)
    (Ha' : U64.in_range a') (Hb' : U64.in_range b') :
  AddLovelace_overflow a b = AddLovelace_overflow a' b' ->
  a = a' /\ b = b'.
Proof.
  unfold AddLovelace_overflow. intros E. injection E as E'.
  apply split_at_first_space in E'; try apply fmt_d_has_no_space.
  destruct E' as (Ea & Eb). injection Eb as Eb'.
  unfold U64.in_range in *.
  split; apply fmt_d_injective; auto; lia.
Qed.

Lemma AddLovelace_overflow_identifies_operands_witness :
  AddLovelace U64.MaxUint64 1 = Err (AddLovelace_overflow U64.MaxUint64 1) /\
  U64.MaxUint64 = U64.MaxUint64 /\ 1 = 1.
Proof.
  split; [reflexivity |].
  apply (AddLovelace_overflow_identifies_operands U64.MaxUint64 1
           U64.MaxUint64 1); try in_range_solve; reflexivity.
Defined.

(** X23. The default params.  [DefaultMainnetParams] and
    [DefaultPreviewParams] hold the same values and pass [Validate];
    with them [MinFee] accepts exactly the sizes 1 to 16384 and returns
    the exact fee [44 * size + 155381], between 155425 and 876277, so no
    accepted size can overflow. *)
Theorem default_params_fee_is_exact (size : Z) (Hsize : U64.in_range size) :
  DefaultPreviewParams = DefaultMainnetParams /\
  Validate DefaultMainnetParams = None /\
  (1 <= size <= 16384 ->
   MinFee DefaultMainnetParams size = Ok (44 * size + 155381) /\
   155425 <= 44 * size + 155381 <= 876277) /\
  (size = 0 \/ 16384 < size ->
   is_FeeError (MinFee DefaultMainnetParams size) = true).
Proof.
  split; [reflexivity |]. split; [reflexivity |]. split.
  - intros Hb. split; [| lia].
    rewrite MinFee_valid_in_bounds by (try reflexivity; simpl; lia).
    simpl MinFeeA. simpl MinFeeB.
    rewrite fee_exact by (unfold U64.MaxUint64; lia). reflexivity.
  - intros Hout. unfold MinFee. simpl Validate. cbv iota.
    destruct (Z.eqb_spec size 0); [reflexivity |].
    simpl MaxTxSize.
    destruct (Z.gtb_spec size 16384); [reflexivity | lia].
Qed.

Lemma default_params_fee_is_exact_witness :
  MinFee DefaultMainnetParams 16384 = Ok (44 * 16384 + 155381).
Proof.
  assert (Hs : U64.in_range 16384) by in_range_solve.
  destruct (default_params_fee_is_exact 16384 Hs) as (_ & _ & H & _).
  apply H. lia.
Defined.
